(** * Asset packages: the layer writer and the multi-source fetcher

    A shallow embedding of [internal/asset] (the layer writer, the fetcher
    façade, the two revisions of the URI fetcher, the image fetcher) and of
    the properties the specification states about them.

    Go values are modelled as the code has them: [string] for Go strings,
    [list Byte.byte] for byte slices, [gmap string _] for the
    [dist.AssetMap], records for structs.  A Go [error] is a small tree of
    messages, so that both the branch that produced an error and the text
    [Error()] prints can be talked about.  Methods that touch the file
    system or the target image thread an explicit state. *)

From Stdlib Require Import ZArith Ascii String List.
From stdpp Require Import gmap strings list fin_maps.

Definition bytes : Type := list Byte.byte.

(** ** Go's [error] values and the [errors] / [fmt] constructors used here *)

Inductive error : Type :=
| errors_New (msg : string)
| fmt_Errorf (msg : string)
| errors_Wrap (cause : error) (msg : string).

(** [err.Error()]: github.com/pkg/errors prints a wrapped error as
    [msg: cause]. *)
Fixpoint Error (e : error) : string :=
  match e with
  | errors_New msg => msg
  | fmt_Errorf msg => msg
  | errors_Wrap cause msg => msg +:+ ": " +:+ Error cause
  end.

(** [errors.Wrapf(err, msg)] on a possibly-nil error: nil stays nil. *)
Definition errors_Wrapf (err : option error) (msg : string) : option error :=
  match err with
  | None => None
  | Some e => Some (errors_Wrap e msg)
  end.

(** [strings.Contains(s, substr)], as the test helpers use it on messages. *)
Fixpoint strings_Contains (s substr : string) : bool :=
  String.prefix substr s ||
  match s with
  | EmptyString => false
  | String _ s' => strings_Contains s' substr
  end.

(** ** Go's [path.Join] (and [filepath.Join] on a slash-separated system)

    [Join] drops leading empty elements, joins the rest with a slash and
    cleans the result; [Clean] works element by element: empty and [.]
    elements vanish, [..] removes the element before it (or, on a relative
    path with nothing to remove, is kept). *)
Module path.

Definition slash : ascii := "/"%char.

(** [strings.Split(s, "/")] *)
Fixpoint split (s : string) : list string :=
  match s with
  | EmptyString => [EmptyString]
  | String c s' =>
      if Ascii.eqb c slash then EmptyString :: split s'
      else match split s' with
           | [] => [String c EmptyString]
           | x :: xs => String c x :: xs
           end
  end.

(** [strings.Join(elems, "/")] *)
Fixpoint join (elems : list string) : string :=
  match elems with
  | [] => EmptyString
  | [e] => e
  | e :: rest => e +:+ "/" +:+ join rest
  end.

(** One element of [Clean]'s loop; [out] holds the kept elements, last
    one first. *)
Definition clean_step (rooted : bool) (out : list string) (e : string)
  : list string :=
  if String.eqb e "" || String.eqb e "." then out
  else if String.eqb e ".." then
    match out with
    | x :: out' => if String.eqb x ".." then e :: out else out'
    | [] => if rooted then [] else [e]
    end
  else e :: out.

Definition Clean (p : string) : string :=
  match p with
  | EmptyString => "."
  | String c _ =>
      let rooted := Ascii.eqb c slash in
      let out := fold_left (clean_step rooted) (split p) [] in
      let body := join (rev out) in
      if rooted then "/" +:+ body
      else if String.eqb body "" then "." else body
  end.

Fixpoint Join (elem : list string) : string :=
  match elem with
  | [] => EmptyString
  | e :: rest =>
      if String.eqb e "" then Join rest else Clean (join elem)
  end.



End path.


(** ** [dist]: the content model

    [dist.AssetInfo], [dist.AssetValue] and [dist.AssetMap] are declared
    outside the files under verification; their fields are the ones the
    specification's data model lists and the tests construct. *)
Module AssetInfo.
Record t : Type := Build {
  ID : string;
  Name : string;
  Version : string;
  URI : string;
  Sha256 : string;
  Stacks : list string;
}.
End AssetInfo.

Module AssetValue.
Record t : Type := Build {
  ID : string;
  Name : string;
  Version : string;
  URI : string;
  Stacks : list string;
  LayerDiffID : string;
}.
End AssetValue.

Abbreviation AssetMap := (gmap string AssetValue.t).

(** Modelled from the spec: [AssetInfo.ToAssetValue] is declared in [dist],
    outside the sources at hand.  The data model gives an [AssetValue] the
    identity fields of its [AssetInfo] (ID, Name, Version, URI, Stacks) and
    the diff-id it is handed. *)
Definition ToAssetValue (a : AssetInfo.t) (layerDiffID : string) : AssetValue.t :=
  {| AssetValue.ID := AssetInfo.ID a;
     AssetValue.Name := AssetInfo.Name a;
     AssetValue.Version := AssetInfo.Version a;
     AssetValue.URI := AssetInfo.URI a;
     AssetValue.Stacks := AssetInfo.Stacks a;
     AssetValue.LayerDiffID := layerDiffID |}.

(** [m.LayerDiffID = d] on a copy of a map entry. *)
Definition set_LayerDiffID (m : AssetValue.t) (d : string) : AssetValue.t :=
  {| AssetValue.ID := AssetValue.ID m;
     AssetValue.Name := AssetValue.Name m;
     AssetValue.Version := AssetValue.Version m;
     AssetValue.URI := AssetValue.URI m;
     AssetValue.Stacks := AssetValue.Stacks m;
     AssetValue.LayerDiffID := d |}.

(** Modelled from the spec: the label key [LayersLabel] is a constant of
    the package declared outside the sources at hand; the specification and
    the tests give its value. *)
Definition LayersLabel : string := "io.buildpacks.asset.layers".

(** A [Blob] is a content provider: its declared identity and the outcome
    of [Open] (a blob answers every [Open] alike).  A successful [Open]
    yields a reader; reading it to the end delivers some bytes and then
    either EOF or a read error. *)
Definition ReadCloser : Type := bytes * option error.

Record Blob : Type := {
  AssetDescriptor : AssetInfo.t;
  Open : error + ReadCloser;
}.

(** The declared hash of a blob, and the last blob of a sequence that
    declares a given hash. *)
Definition declared (b : Blob) : string := AssetInfo.Sha256 (AssetDescriptor b).

Fixpoint last_declared (k : string) (bs : list Blob) : option Blob :=
  match bs with
  | [] => None
  | b :: rest =>
      match last_declared k rest with
      | Some b' => Some b'
      | None => if String.eqb (declared b) k then Some b else None
      end
  end.

(** ** [archive/tar] headers and the tar writer interface *)

Inductive Typeflag : Type := TypeReg | TypeDir.

Record Header : Type := {
  hdr_Typeflag : Typeflag;
  hdr_Name : string;
  hdr_Mode : Z;
  hdr_Size : Z;
  hdr_ModTime : Z;
}.

(** What the code takes from outside: functions of Go's standard library
    ([crypto/sha256], [encoding/hex], the [%q] verb, [encoding/json] on an
    [AssetMap]) and two constants of pack's own [archive] and [style]
    packages. *)
Class External : Type := {
  sha256_Sum : bytes → bytes;
  hex_EncodeToString : bytes → string;
  strconv_Quote : string → string;
  json_Marshal : AssetMap → string;
  NormalizedDateTime : Z;
  style_Symbol : string → string;
}.

(** [archive.TarWriterFactory] and the [archive.TarWriter] it makes.  A
    writer is a state machine over [TW]; every call returns the new state,
    the bytes it pushed into the underlying stream, and its error. *)
Class TarWriterFactory (TW : Type) : Type := {
  NewWriter : TW;
  tw_WriteHeader : Header → TW → TW * bytes * option error;
  tw_Write : bytes → TW → TW * bytes * option error;
  tw_Close : TW → bytes * option error;
}.

(** A value of the interface [archive.TarWriterFactory], as a writer keeps
    it: an implementation together with the type of its writers' states. *)
Record archive_TarWriterFactory : Type := {
  TarWriter : Type;
  TarWriter_impl : TarWriterFactory TarWriter;
}.

(** The calls a tar writer can receive, for talking about their order. *)
Inductive TarCall : Type :=
| CallWriteHeader (h : Header)
| CallWrite (p : bytes).

(** ** The target: [Writable]

    A target is observed through the calls it receives.  Its answers may
    depend on everything it was asked before. *)
Inductive WritableCall : Type :=
| CallAddLayerWithDiffID (path diffID : string)
| CallSetLabel (key value : string).

Record Writable : Type := {
  calls : list WritableCall;
  answer : list WritableCall → WritableCall → option error;
}.

Definition invoke (c : WritableCall) (w : Writable) : option error * Writable :=
  (answer w (calls w) c, {| calls := calls w ++ [c]; answer := answer w |}).

Definition AddLayerWithDiffID (path diffID : string) (w : Writable)
  : option error * Writable :=
  invoke (CallAddLayerWithDiffID path diffID) w.

Definition SetLabel (key value : string) (w : Writable)
  : option error * Writable :=
  invoke (CallSetLabel key value) w.

Definition is_SetLabel (c : WritableCall) : bool :=
  match c with CallSetLabel _ _ => true | _ => false end.

(** ** The operating system: files, directories, failures

    Every fallible system call consumes one entry of [faults]: [Some e]
    makes it fail with [e], [None] (or an exhausted list) lets it succeed.
    [rand] feeds the random suffix of temporary names. *)
Record OS : Type := {
  files : gmap string bytes;
  dirs : gset string;
  TMPDIR : string;
  rand : list string;
  faults : list (option error);
}.

Definition next_fault (o : OS) : option error * OS :=
  match faults o with
  | [] => (None, o)
  | f :: rest =>
      (f, {| files := files o; dirs := dirs o; TMPDIR := TMPDIR o;
             rand := rand o; faults := rest |})
  end.

Definition next_rand (o : OS) : string * OS :=
  match rand o with
  | [] => ("", o)
  | r :: rest =>
      (r, {| files := files o; dirs := dirs o; TMPDIR := TMPDIR o;
             rand := rest; faults := faults o |})
  end.

Definition with_fs (fs : gmap string bytes) (ds : gset string) (o : OS) : OS :=
  {| files := fs; dirs := ds; TMPDIR := TMPDIR o;
     rand := rand o; faults := faults o |}.

(** [p] is [root] or lies below it. *)
Definition under (root p : string) : bool :=
  String.eqb p root || String.prefix (root +:+ "/") p.

(** [ioutil.TempDir("", pattern)]: a new directory below the system's
    temporary directory, named [pattern] plus a random suffix. *)
Definition ioutil_TempDir (pattern : string) (o : OS) : (error + string) * OS :=
  let '(f, o) := next_fault o in
  match f with
  | Some e => (inl e, o)
  | None =>
      let '(r, o) := next_rand o in
      let name := path.Join [TMPDIR o; pattern +:+ r] in
      (inr name, with_fs (files o) ({[ name ]} ∪ dirs o) o)
  end.

(** [os.RemoveAll(p)]: removes [p] and everything below it; a missing [p]
    is not an error.  (What a failed removal leaves behind is not
    modelled: the state is kept.) *)
Definition os_RemoveAll (p : string) (o : OS) : option error * OS :=
  let '(f, o) := next_fault o in
  match f with
  | Some e => (Some e, o)
  | None =>
      (None, with_fs (filter (λ kv, under p kv.1 = false) (files o))
                     (filter (λ d, under p d = false) (dirs o)) o)
  end.

(** [os.OpenFile(name, O_RDWR|O_TRUNC|O_CREATE, 0644)] *)
Definition os_OpenFile (name : string) (o : OS) : option error * OS :=
  let '(f, o) := next_fault o in
  match f with
  | Some e => (Some e, o)
  | None => (None, with_fs (<[name := []]> (files o)) (dirs o) o)
  end.

(** [file.Write(p)] on the file opened at [name]. *)
Definition file_Write (name : string) (p : bytes) (o : OS) : option error * OS :=
  let '(f, o) := next_fault o in
  match f with
  | Some e => (Some e, o)
  | None =>
      (None, with_fs (<[name := default [] (files o !! name) ++ p]> (files o))
                     (dirs o) o)
  end.

(** ** writer.go: the layer writer *)

Record AssetWriter : Type := {
  tmpDir : string;
  blobs : list Blob;
  metadata : AssetMap;
  writerFactory : archive_TarWriterFactory;
}.

Definition NewLayerWriter (writerFactory : archive_TarWriterFactory) : AssetWriter :=
  {| tmpDir := ""; blobs := []; metadata := ∅; writerFactory := writerFactory |}.

Definition set_tmpDir (d : string) (lw : AssetWriter) : AssetWriter :=
  {| tmpDir := d; blobs := blobs lw; metadata := metadata lw;
     writerFactory := writerFactory lw |}.

Definition set_metadata (md : AssetMap) (lw : AssetWriter) : AssetWriter :=
  {| tmpDir := tmpDir lw; blobs := blobs lw; metadata := md;
     writerFactory := writerFactory lw |}.

(** [filepath.Join] on a slash-separated system. *)
Definition filepath_Join : list string → string := path.Join.

(** The layer file of a blob in the workspace [dir], and the last blob of
    a sequence whose layer file is [p]. *)
Definition layer_file (dir : string) (b : Blob) : string :=
  filepath_Join [dir; declared b].

Fixpoint last_at (dir p : string) (bs : list Blob) : option Blob :=
  match bs with
  | [] => None
  | b :: rest =>
      match last_at dir p rest with
      | Some b' => Some b'
      | None => if String.eqb (layer_file dir b) p then Some b else None
      end
  end.

Definition AssetWriter_Open (lw : AssetWriter) (o : OS)
  : option error * AssetWriter * OS :=
  if negb (String.eqb (tmpDir lw) "") then
    (Some (errors_New "unable to open writer: writer already open"), lw, o)
  else
    let '(r, o) := ioutil_TempDir "writer-workspace" o in
    match r with
    | inl err => (Some err, lw, o)
    | inr tmp => (None, set_tmpDir tmp lw, o)
    end.

Definition AssetWriter_Close (lw : AssetWriter) (o : OS)
  : option error * AssetWriter * OS :=
  if String.eqb (tmpDir lw) "" then
    (Some (errors_New "unable to close writer: writer is not open"), lw, o)
  else
    let '(err, o) := os_RemoveAll (tmpDir lw) o in
    match err with
    | Some err => (Some err, lw, o)
    | None => (None, set_tmpDir "" lw, o)
    end.

Definition AssetWriter_AddAssetBlobs (aBlobs : list Blob) (lw : AssetWriter)
  : AssetWriter :=
  {| tmpDir := tmpDir lw;
     blobs := blobs lw ++ aBlobs;
     metadata :=
       fold_left
         (λ md b,
            let descriptor := AssetDescriptor b in
            let assetMetadata := descriptor in
            <[AssetInfo.Sha256 descriptor := ToAssetValue assetMetadata ""]> md)
         aBlobs (metadata lw);
     writerFactory := writerFactory lw |}.

Definition AssetWriter_AssetMetadata (lw : AssetWriter) : AssetMap :=
  metadata lw.

(** [io.Copy(buf, rc)] into a fresh buffer. *)
Definition io_Copy_buffer (rc : ReadCloser) : error + bytes :=
  match rc with
  | (p, None) => inr p
  | (_, Some e) => inl e
  end.

(** [io.Copy(io.MultiWriter(layerFile, hasher), assetLayer)]: what the
    reader delivers goes to the file and to the hasher; a failed write, or
    else the reader's own error, ends the copy.  Returns the hashed bytes. *)
Definition io_Copy_tee (layerFileName : string) (assetLayer : ReadCloser) (o : OS)
  : (error + bytes) * OS :=
  let '(p, rerr) := assetLayer in
  let '(werr, o) := file_Write layerFileName p o in
  match werr, rerr with
  | Some e, _ => (inl e, o)
  | None, Some e => (inl e, o)
  | None, None => (inr p, o)
  end.

(** What a run of [Write] may change: in the writer, only the diff-ids of
    the entries it already has; on the target, only layers are added until
    the final label. *)
Definition same_writer (lw lw' : AssetWriter) : Prop :=
  tmpDir lw' = tmpDir lw ∧ blobs lw' = blobs lw
  ∧ (∀ k, (λ v, set_LayerDiffID v "") <$> metadata lw' !! k
          = (λ v, set_LayerDiffID v "") <$> metadata lw !! k)
  ∧ writerFactory lw' = writerFactory lw.

Definition only_layers (w w' : Writable) : Prop :=
  answer w' = answer w
  ∧ ∃ l, calls w' = calls w ++ l ∧ Forall (λ c, is_SetLabel c = false) l.

Section Model.

Context `{External} {TW : Type} `{!TarWriterFactory TW}.

(** Code run against a tar writer: threads the writer, collects what it
    pushed into the stream, stops at the first error. *)
Definition TarM (A : Type) : Type := TW → TW * bytes * (error + A).

Definition tar_bind {A B : Type} (m : TarM A) (k : A → TarM B) : TarM B :=
  λ tw,
    let '(tw1, out1, r) := m tw in
    match r with
    | inl e => (tw1, out1, inl e)
    | inr a => let '(tw2, out2, r2) := k a tw1 in (tw2, out1 ++ out2, r2)
    end.

Notation "x <- m ;; k" := (tar_bind m (λ x, k))
  (at level 100, m at next level, right associativity, only parsing).

Definition of_call (r : TW * bytes * option error) : TW * bytes * (error + unit) :=
  let '(tw, out, err) := r in
  (tw, out, match err with Some e => inl e | None => inr tt end).

Definition TarWriter_WriteHeader (h : Header) : TarM unit :=
  λ tw, of_call (tw_WriteHeader h tw).

Definition TarWriter_Write (p : bytes) : TarM unit :=
  λ tw, of_call (tw_Write p tw).

Definition tar_lift {A : Type} (r : error + A) : TarM A :=
  λ tw, (tw, [], r).

(** [if err != nil { return errors.Wrapf(err, msg) }] *)
Definition wrapping {A : Type} (msg : string) (m : TarM A) : TarM A :=
  λ tw,
    let '(tw1, out1, r) := m tw in
    (tw1, out1, match r with
                | inl e => inl (errors_Wrap e msg)
                | inr a => inr a
                end).

Definition toAssetTar (blobSha : string) (blob : Blob) : TarM unit :=
  let ts := NormalizedDateTime in
  _ <- wrapping "writing asset package /cnb dir header"
         (TarWriter_WriteHeader
            {| hdr_Typeflag := TypeDir;
               hdr_Name := path.Join ["/cnb"];
               hdr_Mode := 493 (* 0755 *);
               hdr_Size := 0;
               hdr_ModTime := ts |}) ;;
  _ <- wrapping "writing asset package /cnb/asset dir header"
         (TarWriter_WriteHeader
            {| hdr_Typeflag := TypeDir;
               hdr_Name := path.Join ["/cnb"; "assets"];
               hdr_Mode := 493;
               hdr_Size := 0;
               hdr_ModTime := ts |}) ;;
  rc <- wrapping ("unable to open blob for asset " +:+ strconv_Quote blobSha)
         (tar_lift (Open blob)) ;;
  buf <- wrapping "unable to copy blob contents to buffer"
         (tar_lift (io_Copy_buffer rc)) ;;
  _ <- wrapping ("writing asset package /cnb/asset/" +:+ blobSha +:+ " file")
         (TarWriter_WriteHeader
            {| hdr_Typeflag := TypeReg;
               hdr_Name := path.Join ["/cnb"; "assets"; blobSha];
               hdr_Mode := 493;
               hdr_Size := Z.of_nat (length buf);
               hdr_ModTime := ts |}) ;;
  TarWriter_Write buf.

(** Modelled from the spec: [archive.GenerateTarWithWriter] is declared in
    pack's [archive] package, outside the sources at hand.  It runs the
    generator against a new writer of the factory and hands back a reader
    of the stream: the bytes the writer produced, closing included, ended
    by the generator's error when it has one.  (An error of closing the
    writer is not part of what the reader delivers.) *)
Definition GenerateTarWithWriter (genFn : TarM unit) : ReadCloser :=
  let '(tw, out, r) := genFn NewWriter in
  let '(out', _) := tw_Close tw in
  (out ++ out', match r with inl e => Some e | inr _ => None end).

Definition createAssetLayerFile (layerFileName : string) (assetLayer : ReadCloser)
  (o : OS) : (error + string) * OS :=
  let '(err, o) := os_OpenFile layerFileName o in
  match err with
  | Some e => (inl e, o)
  | None =>
      let '(r, o) := io_Copy_tee layerFileName assetLayer o in
      match r with
      | inl e => (inl e, o)
      | inr hashed =>
          let sha256Hash := hex_EncodeToString (sha256_Sum hashed) in
          (inr sha256Hash, o)
      end
  end.

(** Modelled from the spec: [dist.SetLabel] is declared in [dist], outside
    the sources at hand.  It serialises the map as JSON, sets it as one
    label on the target and wraps the target's error, naming the label. *)
Definition dist_SetLabel (w : Writable) (label : string) (data : AssetMap)
  : option error * Writable :=
  let '(err, w) := SetLabel label (json_Marshal data) w in
  (errors_Wrapf err ("setting label " +:+ style_Symbol label), w).

Definition diffID_of (layer : bytes) : string :=
  "sha256:" +:+ hex_EncodeToString (sha256_Sum layer).

End Model.

Section WriterModel.

Context `{External}.

(** The stream [Write] builds for one blob, with the writer's factory. *)
Definition assetLayerReader (writerFactory : archive_TarWriterFactory)
  (aBlob : Blob) : ReadCloser :=
  @GenerateTarWithWriter (TarWriter writerFactory) (TarWriter_impl writerFactory)
    (@toAssetTar _ (TarWriter writerFactory) (TarWriter_impl writerFactory)
       (AssetInfo.Sha256 (AssetDescriptor aBlob)) aBlob).

(** The body of [Write]'s loop, for one blob. *)
Definition Write_blob (aBlob : Blob) (lw : AssetWriter) (w : Writable) (o : OS)
  : option error * AssetWriter * Writable * OS :=
  let layerFileName :=
    filepath_Join [tmpDir lw; AssetInfo.Sha256 (AssetDescriptor aBlob)] in
  let descriptor := AssetDescriptor aBlob in
  let '(r, o) :=
    createAssetLayerFile layerFileName
      (assetLayerReader (writerFactory lw) aBlob) o in
  match r with
  | inl err =>
      (Some (errors_Wrap err "unable to create asset layer file"), lw, w, o)
  | inr layerDiffID =>
      let '(err, w) :=
        AddLayerWithDiffID layerFileName ("sha256:" +:+ layerDiffID) w in
      match err with
      | Some err => (Some (errors_Wrap err "unable to write layer"), lw, w, o)
      | None =>
          match metadata lw !! AssetInfo.Sha256 descriptor with
          | None =>
              (Some (fmt_Errorf ("unknown sha256 asset value "
                                 +:+ AssetInfo.Sha256 descriptor)), lw, w, o)
          | Some m =>
              let m := set_LayerDiffID m ("sha256:" +:+ layerDiffID) in
              (None,
               set_metadata (<[AssetInfo.Sha256 descriptor := m]> (metadata lw)) lw,
               w, o)
          end
      end
  end.

Fixpoint Write_loop (bs : list Blob) (lw : AssetWriter) (w : Writable) (o : OS)
  : option error * AssetWriter * Writable * OS :=
  match bs with
  | [] => (None, lw, w, o)
  | aBlob :: rest =>
      let '(err, lw, w, o) := Write_blob aBlob lw w o in
      match err with
      | Some e => (Some e, lw, w, o)
      | None => Write_loop rest lw w o
      end
  end.

Definition AssetWriter_Write (lw : AssetWriter) (w : Writable) (o : OS)
  : option error * AssetWriter * Writable * OS :=
  if String.eqb (tmpDir lw) "" then
    (Some (errors_New "AssetWriter must be opened before writing"), lw, w, o)
  else
    let '(err, lw, w, o) := Write_loop (blobs lw) lw w o in
    match err with
    | Some e => (Some e, lw, w, o)
    | None =>
        let '(err, w) := dist_SetLabel w LayersLabel (metadata lw) in
        (err, lw, w, o)
    end.

(** The public operations of a writer, and the states they reach from a
    new one. *)
Inductive Op : Type :=
| OpOpen
| OpClose
| OpWrite (w : Writable)
| OpAddAssetBlobs (aBlobs : list Blob).

Definition step (s : AssetWriter * OS) (op : Op) : AssetWriter * OS :=
  let '(lw, o) := s in
  match op with
  | OpOpen => let '(_, lw, o) := AssetWriter_Open lw o in (lw, o)
  | OpClose => let '(_, lw, o) := AssetWriter_Close lw o in (lw, o)
  | OpWrite w => let '(_, lw, _, o) := AssetWriter_Write lw w o in (lw, o)
  | OpAddAssetBlobs aBlobs => (AssetWriter_AddAssetBlobs aBlobs lw, o)
  end.

Definition run (writerFactory : archive_TarWriterFactory) (ops : list Op) (o : OS)
  : AssetWriter * OS :=
  fold_left step ops (NewLayerWriter writerFactory, o).

Definition reachable (lw : AssetWriter) : Prop :=
  ∃ writerFactory ops o, (run writerFactory ops o).1 = lw.

Definition is_OpAddAssetBlobs (op : Op) : bool :=
  match op with OpAddAssetBlobs _ => true | _ => false end.

(** The call [Write] makes on the target for one blob. *)
Definition layer_call (writerFactory : archive_TarWriterFactory) (dir : string)
  (b : Blob) : WritableCall :=
  CallAddLayerWithDiffID (filepath_Join [dir; declared b])
                         (diffID_of (assetLayerReader writerFactory b).1).

(** The writer's invariant: the map has an entry exactly for the declared
    hashes of the blobs, and each entry carries the identity of the last
    blob that declared its key. *)
Definition consistent (lw : AssetWriter) : Prop :=
  ∀ k, (λ v, set_LayerDiffID v "") <$> metadata lw !! k
       = (λ b, ToAssetValue (AssetDescriptor b) "") <$> last_declared k (blobs lw).

End WriterModel.

(** ** fetcher.go: the fetcher façade *)

(** The locator types [FetchAssets] switches on; [InvalidLocator] stands
    for every value its [switch] does not name. *)
Inductive LocatorType : Type :=
| InvalidLocator
| URILocator
| FilepathLocator
| ImageLocator.

Inductive PullPolicy : Type := PullAlways | PullNever | PullIfNotPresent.

(** What the fetchers take from outside: the packages and images they
    hand around, contexts, the working directory, and the locator, which
    is declared in another file of the package. *)
Class FetchEnv : Type := {
  OciLayoutPackage : Type;
  Image : Type;
  Ctx : Type;
  context_Background : Ctx;
  os_Getwd : error + string;
  GetLocatorType : string → string → LocatorType;
  LocatorType_String : LocatorType → string;
}.

(** [net/url], the downloader, the OCI-layout opener and the file fetcher
    the URI fetcher delegates to. *)
Record URL : Type := { Scheme : string; URL_String : string }.

Class URIEnv `{FetchEnv} : Type := {
  DownloadedBlob : Type;
  url_Parse : string → error + URL;
  Download : Ctx → string → error + DownloadedBlob;
  NewOCILayoutPackage : DownloadedBlob → error + OciLayoutPackage;
  paths_URIToFilePath : string → error + string;
  localFileFetcher_FetchFileAssets :
    Ctx → string → list string → list OciLayoutPackage * option error;
}.

(** A Go call either returns or panics. *)
Inductive Outcome (A : Type) : Type :=
| Returns (a : A)
| Panics (v : error).
Arguments Returns {A} a.
Arguments Panics {A} v.

Section Fetchers.

Context `{External} `{URIEnv}.

Inductive Readable : Type :=
| ReadableOCI (pkg : OciLayoutPackage)
| ReadableImage (img : Image).

(** The calls the three strategies receive. *)
Inductive FetchCall : Type :=
| CallFetchURIAssets (ctx : Ctx) (fileAssets : list string)
| CallFetchFileAssets (ctx : Ctx) (workingDir : string) (fileAssets : list string)
| CallFetchImageAssets (ctx : Ctx) (pullPolicy : PullPolicy) (imageNames : list string).

(** The façade holds the three strategies; [fetched] records the calls they
    received, and their answers may depend on it. *)
Record Fetcher : Type := {
  fetched : list FetchCall;
  assetFileFetcher :
    list FetchCall → Ctx → string → list string
    → list OciLayoutPackage * option error;
  assetURIFetcher :
    list FetchCall → Ctx → list string → list OciLayoutPackage * option error;
  assetImageFetcher :
    list FetchCall → Ctx → PullPolicy → list string → list Image * option error;
}.

Definition record_call (c : FetchCall) (a : Fetcher) : Fetcher :=
  {| fetched := fetched a ++ [c];
     assetFileFetcher := assetFileFetcher a;
     assetURIFetcher := assetURIFetcher a;
     assetImageFetcher := assetImageFetcher a |}.

Definition call_names (c : FetchCall) : list string :=
  match c with
  | CallFetchURIAssets _ names => names
  | CallFetchFileAssets _ _ names => names
  | CallFetchImageAssets _ _ names => names
  end.

Record FetcherConfig : Type := {
  ctx : Ctx;
  imagePullPolicy : PullPolicy;
  workingDir : string;
}.

Definition DefaultFetcherConfig : error + FetcherConfig :=
  match os_Getwd with
  | inl err =>
      inl (fmt_Errorf ("unable to create asset fetcher config: "
                       +:+ strconv_Quote (Error err)))
  | inr wd =>
      inr {| ctx := context_Background;
             imagePullPolicy := PullIfNotPresent;
             workingDir := wd |}
  end.

Definition FetcherOptions : Type := FetcherConfig → FetcherConfig.

Definition WithPullPolicy (policy : PullPolicy) : FetcherOptions :=
  λ cfg, {| ctx := ctx cfg; imagePullPolicy := policy;
            workingDir := workingDir cfg |}.

Definition WithContext (c : Ctx) : FetcherOptions :=
  λ cfg, {| ctx := c; imagePullPolicy := imagePullPolicy cfg;
            workingDir := workingDir cfg |}.

Definition WithWorkingDir (wd : string) : FetcherOptions :=
  λ cfg, {| ctx := ctx cfg; imagePullPolicy := imagePullPolicy cfg;
            workingDir := wd |}.

Definition castOCIToReadable (OCIAssets : list OciLayoutPackage) : list Readable :=
  fold_left (λ result pkg, result ++ [ReadableOCI pkg]) OCIAssets [].

Definition castImgToReadable (imgs : list Image) : list Readable :=
  fold_left (λ result pkg, result ++ [ReadableImage pkg]) imgs [].

(** The [switch] of [FetchAssets]' loop: the strategy chosen by the
    locator is called once, with the single name.  [None] is the
    [default] branch. *)
Definition dispatch (cfg : FetcherConfig) (locator : LocatorType)
  (assetName : string) (a : Fetcher)
  : option (list Readable * option error * Fetcher) :=
  match locator with
  | URILocator =>
      let '(OCIAssets, err) := assetURIFetcher a (fetched a) (ctx cfg) [assetName] in
      Some (castOCIToReadable OCIAssets, err,
            record_call (CallFetchURIAssets (ctx cfg) [assetName]) a)
  | FilepathLocator =>
      let '(OCIAssets, err) :=
        assetFileFetcher a (fetched a) (ctx cfg) (workingDir cfg) [assetName] in
      Some (castOCIToReadable OCIAssets, err,
            record_call (CallFetchFileAssets (ctx cfg) (workingDir cfg) [assetName]) a)
  | ImageLocator =>
      let '(imgAssets, err) :=
        assetImageFetcher a (fetched a) (ctx cfg) (imagePullPolicy cfg) [assetName] in
      Some (castImgToReadable imgAssets, err,
            record_call
              (CallFetchImageAssets (ctx cfg) (imagePullPolicy cfg) [assetName]) a)
  | InvalidLocator => None
  end.

Fixpoint FetchAssets_loop (cfg : FetcherConfig) (assetNameList : list string)
  (result : list Readable) (a : Fetcher)
  : list Readable * option error * Fetcher :=
  match assetNameList with
  | [] => (result, None, a)
  | assetName :: rest =>
      let locator := GetLocatorType assetName (workingDir cfg) in
      match dispatch cfg locator assetName a with
      | None =>
          (result,
           Some (fmt_Errorf ("unable to determine asset type from name: "
                             +:+ assetName)), a)
      | Some (assets, Some err, a) =>
          (result,
           Some (fmt_Errorf ("unable to fetch asset of type "
                             +:+ strconv_Quote (LocatorType_String locator)
                             +:+ ": " +:+ Error err)), a)
      | Some (assets, None, a) =>
          FetchAssets_loop cfg rest (result ++ assets) a
      end
  end.

Definition FetchAssets (a : Fetcher) (assetNameList : list string)
  (options : list FetcherOptions) : list Readable * option error * Fetcher :=
  match DefaultFetcherConfig with
  | inl err => ([], Some err, a)
  | inr cfg =>
      let cfg := fold_left (λ cfg option, option cfg) options cfg in
      FetchAssets_loop cfg assetNameList [] a
  end.

(** ** The URI fetcher, in its two revisions

    Both walk the references in order; they differ in what happens when a
    downloaded blob is not an OCI-layout package. *)
Definition is_http (scheme : string) : bool :=
  String.eqb scheme "http" || String.eqb scheme "https".

Fixpoint PackageURLFetcher_loop (c : Ctx) (uriAssets : list string)
  (result : list OciLayoutPackage) : list OciLayoutPackage * option error :=
  match uriAssets with
  | [] => (result, None)
  | assetFile :: rest =>
      match url_Parse assetFile with
      | inl err =>
          (result, Some (fmt_Errorf ("unable to parse asset url: " +:+ Error err)))
      | inr uri =>
          if is_http (Scheme uri) then
            match Download c (URL_String uri) with
            | inl err =>
                (result, Some (fmt_Errorf ("unable to download asset: "
                                           +:+ strconv_Quote (Error err))))
            | inr assetBlob =>
                match NewOCILayoutPackage assetBlob with
                | inl err =>
                    (result,
                     Some (errors_Wrap err "error opening asset package in OCI format"))
                | inr p => PackageURLFetcher_loop c rest (result ++ [p])
                end
            end
          else if String.eqb (Scheme uri) "file" then
            match paths_URIToFilePath (URL_String uri) with
            | inl err =>
                (result, Some (fmt_Errorf ("unable to get asset filepath: "
                                           +:+ strconv_Quote (Error err))))
            | inr assetFilePath =>
                match localFileFetcher_FetchFileAssets c "" [assetFilePath] with
                | (_, Some err) =>
                    (result, Some (fmt_Errorf ("unable to fetch local file asset: "
                                               +:+ strconv_Quote (Error err))))
                | (assetsFromFile, None) =>
                    PackageURLFetcher_loop c rest (result ++ assetsFromFile)
                end
            end
          else
            (result, Some (fmt_Errorf ("unable to handle url scheme: "
                                       +:+ strconv_Quote (Scheme uri))))
      end
  end.

Definition PackageURLFetcher_FetchURIAssets (c : Ctx) (uriAssets : list string)
  : list OciLayoutPackage * option error :=
  PackageURLFetcher_loop c uriAssets [].

Fixpoint AssetURIFetcher_loop (c : Ctx) (uriAssets : list string)
  (result : list OciLayoutPackage)
  : Outcome (list OciLayoutPackage * option error) :=
  match uriAssets with
  | [] => Returns (result, None)
  | assetFile :: rest =>
      match url_Parse assetFile with
      | inl err =>
          Returns (result,
                   Some (fmt_Errorf ("unable to parse asset url: " +:+ Error err)))
      | inr uri =>
          if is_http (Scheme uri) then
            match Download c (URL_String uri) with
            | inl err =>
                Returns (result,
                         Some (fmt_Errorf ("unable to download asset: "
                                           +:+ strconv_Quote (Error err))))
            | inr assetBlob =>
                match NewOCILayoutPackage assetBlob with
                | inl err => Panics err
                | inr p => AssetURIFetcher_loop c rest (result ++ [p])
                end
            end
          else if String.eqb (Scheme uri) "file" then
            match paths_URIToFilePath (URL_String uri) with
            | inl err =>
                Returns (result,
                         Some (fmt_Errorf ("unable to get asset filepath: "
                                           +:+ strconv_Quote (Error err))))
            | inr assetFilePath =>
                match localFileFetcher_FetchFileAssets c "" [assetFilePath] with
                | (_, Some err) =>
                    Returns (result,
                             Some (fmt_Errorf ("unable to fetch local file asset: "
                                               +:+ strconv_Quote (Error err))))
                | (assetsFromFile, None) =>
                    AssetURIFetcher_loop c rest (result ++ assetsFromFile)
                end
            end
          else
            Returns (result,
                     Some (fmt_Errorf ("unable to handle url scheme: "
                                       +:+ strconv_Quote (Scheme uri))))
      end
  end.

Definition AssetURIFetcher_FetchURIAssets (c : Ctx) (uriAssets : list string)
  : Outcome (list OciLayoutPackage * option error) :=
  AssetURIFetcher_loop c uriAssets [].

(** ** The image fetcher

    [ImgFetcher_Fetch] is the embedded [ImgFetcher]; images are always
    looked up in the daemon. *)
Fixpoint AssetImageFetcher_loop
  (ImgFetcher_Fetch : Ctx → string → bool → PullPolicy → error + Image)
  (c : Ctx) (pullPolicy : PullPolicy) (imageNames : list string)
  (result : list Image) : list Image * option error :=
  match imageNames with
  | [] => (result, None)
  | imageName :: rest =>
      match ImgFetcher_Fetch c imageName true pullPolicy with
      | inl err =>
          (result, Some (fmt_Errorf ("unable to fetch asset image: "
                                     +:+ strconv_Quote (Error err))))
      | inr img =>
          AssetImageFetcher_loop ImgFetcher_Fetch c pullPolicy rest (result ++ [img])
      end
  end.

Definition AssetImageFetcher_FetchImageAssets
  (ImgFetcher_Fetch : Ctx → string → bool → PullPolicy → error + Image)
  (c : Ctx) (pullPolicy : PullPolicy) (imageNames : list string)
  : list Image * option error :=
  AssetImageFetcher_loop ImgFetcher_Fetch c pullPolicy imageNames [].

End Fetchers.

(** ** Order of the calls a tar writer receives *)

Definition do_call `{TarWriterFactory TW} (c : TarCall) (tw : TW)
  : TW * bytes * option error :=
  match c with
  | CallWriteHeader h => tw_WriteHeader h tw
  | CallWrite p => tw_Write p tw
  end.

(** Feed a list of calls to a writer, stopping at the first that fails. *)
Fixpoint feed `{TarWriterFactory TW} (cs : list TarCall) (tw : TW)
  : TW * bytes * option error :=
  match cs with
  | [] => (tw, [], None)
  | c :: rest =>
      let '(tw1, out1, err) := do_call c tw in
      match err with
      | Some e => (tw1, out1, Some e)
      | None => let '(tw2, out2, err2) := feed rest tw1 in (tw2, out1 ++ out2, err2)
      end
  end.

(** The entries of an asset layer, as the specification lists them: two
    directories, then one regular file, [fileName], holding [content]. *)
Definition asset_layer_entries (ts : Z) (fileName : string) (content : bytes)
  : list TarCall :=
  [ CallWriteHeader {| hdr_Typeflag := TypeDir; hdr_Name := "/cnb";
                       hdr_Mode := 493; hdr_Size := 0; hdr_ModTime := ts |};
    CallWriteHeader {| hdr_Typeflag := TypeDir; hdr_Name := "/cnb/assets";
                       hdr_Mode := 493; hdr_Size := 0; hdr_ModTime := ts |};
    CallWriteHeader {| hdr_Typeflag := TypeReg;
                       hdr_Name := fileName;
                       hdr_Mode := 493;
                       hdr_Size := Z.of_nat (length content);
                       hdr_ModTime := ts |};
    CallWrite content ].

(** The two directory entries every asset layer starts with. *)
Definition asset_layer_dirs (ts : Z) : list TarCall :=
  [ CallWriteHeader {| hdr_Typeflag := TypeDir; hdr_Name := "/cnb";
                       hdr_Mode := 493; hdr_Size := 0; hdr_ModTime := ts |};
    CallWriteHeader {| hdr_Typeflag := TypeDir; hdr_Name := "/cnb/assets";
                       hdr_Mode := 493; hdr_Size := 0; hdr_ModTime := ts |} ].



(** ** [archive] on Windows: hard links and inodes

    The file information of a handle carries three [uint32] fields the
    code reads.  [open(path)] asks the system for it; its outcome is an
    argument here. *)
Record ByHandleFileInformation : Type := {
  NumberOfLinks : Z;
  FileIndexHigh : Z;
  FileIndexLow : Z;
}.

Definition is_uint32 (z : Z) : Prop := (0 ≤ z < 2 ^ 32)%Z.

(** Conversion to [uint64], and the wrap-around of its arithmetic. *)
Definition uint64 (z : Z) : Z := (z mod 2 ^ 64)%Z.

(** [(uint64(s.FileIndexHigh) << 32) | uint64(s.FileIndexLow)] *)
Definition file_index (s : ByHandleFileInformation) : Z :=
  Z.lor (uint64 (Z.shiftl (uint64 (FileIndexHigh s)) 32))
        (uint64 (FileIndexLow s)).

(** [stat] is [Some] when the type assertion succeeds. *)
Definition getInodeFromStat (stat : option ByHandleFileInformation)
  (open_path : error + ByHandleFileInformation) : Z * option error :=
  match stat with
  | Some s => (file_index s, None)
  | None =>
      match open_path with
      | inr s => (file_index s, None)
      | inl err => (0%Z, Some err)
      end
  end.

Definition hasHardlinks (sys : option ByHandleFileInformation)
  (open_path : error + ByHandleFileInformation) : bool * option error :=
  match sys with
  | Some v => ((1 <? NumberOfLinks v)%Z, None)
  | None =>
      match open_path with
      | inl err => (false, Some err)
      | inr info => ((1 <? NumberOfLinks info)%Z, None)
      end
  end.

(** ** The assertions of the acceptance tests

    An assertion passes, or ends the test with a message ([Fatalf]). *)
Inductive Verdict : Type :=
| Passed
| Fatal (msg : string).

Definition newline : string := String (ascii_of_nat 10) EmptyString.

Section Assertions.

(** [cmp.Diff], of which only the text matters. *)
Variable cmp_Diff : string → string → string.

Definition AssertionManager_Contains (actual expected : string) : Verdict :=
  if negb (strings_Contains actual expected) then
    Fatal ("Expected '" +:+ actual +:+ "' to contain '" +:+ expected +:+ "'"
           +:+ newline +:+ newline +:+ "Diff:" +:+ cmp_Diff expected actual)
  else Passed.

Fixpoint AssertionManager_ContainsAll (actual : string) (expected : list string)
  : Verdict :=
  match expected with
  | [] => Passed
  | e :: rest =>
      match AssertionManager_Contains actual e with
      | Fatal msg => Fatal msg
      | Passed => AssertionManager_ContainsAll actual rest
      end
  end.

Definition AssertionManager_NotContain (actual expected : string) : Verdict :=
  if strings_Contains actual expected then
    Fatal ("Expected '" +:+ expected +:+ "' not to be in '" +:+ actual +:+ "'")
  else Passed.

Definition AssertionManager_Error (actual : option error) : Verdict :=
  match actual with
  | None => Fatal "Expected an error but got nil"
  | Some _ => Passed
  end.

Definition AssertionManager_errorMatches (actual : option error) (expected : string)
  : Verdict :=
  match AssertionManager_Error actual with
  | Fatal msg => Fatal msg
  | Passed =>
      match actual with
      | Some e =>
          if negb (strings_Contains (Error e) expected) then
            Fatal ("Expected error to contain " +:+ String (ascii_of_nat 34) expected
                   +:+ String (ascii_of_nat 34) ", got "
                   +:+ String (ascii_of_nat 34) (Error e)
                   +:+ String (ascii_of_nat 34) EmptyString)
          else Passed
      | None => Passed
      end
  end.

Definition AssertionManager_PackageCreated (name output : string) : Verdict :=
  AssertionManager_Contains output
    ("Successfully created package '" +:+ name +:+ "'").

Definition AssertionManager_PackagePublished (name output : string) : Verdict :=
  AssertionManager_Contains output
    ("Successfully published package '" +:+ name +:+ "'").

End Assertions.

(** ** Test doubles

    Stand-ins for the outside world, in the manner of the fakes and mocks
    of the Go tests; the examples and witnesses below run the model on
    them. *)

Definition dquote : string := String (ascii_of_nat 34) EmptyString.

Definition toy_External : External :=
  {| sha256_Sum := λ p, rev p;
     hex_EncodeToString := string_of_list_byte;
     strconv_Quote := λ s, dquote +:+ s +:+ dquote;
     json_Marshal :=
       λ m, "{" +:+ String.concat ","
                      (map (λ kv, kv.1 +:+ "=" +:+ AssetValue.LayerDiffID kv.2)
                           (map_to_list m)) +:+ "}";
     NormalizedDateTime := 315532801;
     style_Symbol := λ s, s |}.

(** A tar writer that records its calls and streams names and contents. *)
Definition recorder : TarWriterFactory (list TarCall) :=
  {| NewWriter := [];
     tw_WriteHeader := λ h tw,
       (tw ++ [CallWriteHeader h], list_byte_of_string (hdr_Name h), None);
     tw_Write := λ p tw, (tw ++ [CallWrite p], p, None);
     tw_Close := λ tw, ([], None) |}.

Definition recorderFactory : archive_TarWriterFactory :=
  {| TarWriter := list TarCall; TarWriter_impl := recorder |}.



Definition fresh_target : Writable := {| calls := []; answer := λ _ _, None |}.

Definition quiet_OS : OS :=
  {| files := ∅; dirs := ∅; TMPDIR := "/tmp"; rand := ["042"]; faults := [] |}.

Definition firstAsset : AssetInfo.t :=
  {| AssetInfo.ID := "first-asset"; AssetInfo.Name := "First AssetInfo";
     AssetInfo.Version := "1.2.3"; AssetInfo.URI := "https://first-asset-uri";
     AssetInfo.Sha256 := "first-sha256";
     AssetInfo.Stacks := ["io.buildpacks.stacks.bionic"] |}.

Definition firstAssetReplace : AssetInfo.t :=
  {| AssetInfo.ID := "first-asset-replace";
     AssetInfo.Name := "First AssetInfo Replace";
     AssetInfo.Version := "1.2.3";
     AssetInfo.URI := "https://first-asset-replace-uri";
     AssetInfo.Sha256 := "first-sha256";
     AssetInfo.Stacks := ["io.buildpacks.stacks.bionic"] |}.

Definition secondAsset : AssetInfo.t :=
  {| AssetInfo.ID := "second-asset"; AssetInfo.Name := "Second AssetInfo";
     AssetInfo.Version := "4.5.6"; AssetInfo.URI := "https://second-asset-uri";
     AssetInfo.Sha256 := "second-sha256";
     AssetInfo.Stacks := ["io.buildpacks.stacks.bionic"] |}.

Definition NewFakeBlob (a : AssetInfo.t) (contents : string) : Blob :=
  {| AssetDescriptor := a;
     Open := inr (list_byte_of_string contents, None) |}.

Definition firstAssetBlob : Blob := NewFakeBlob firstAsset "first asset contents".
Definition firstAssetReplaceBlob : Blob :=
  NewFakeBlob firstAssetReplace "first replace asset contents".
Definition secondAssetBlob : Blob := NewFakeBlob secondAsset "second asset contents".

(** The mock of the test [unable to add assets to final image]: [Open]
    fails. *)
Definition mockBlob : Blob :=
  {| AssetDescriptor := firstAsset;
     Open := inl (errors_New "open blob error") |}.

(** The model run on the doubles. *)
Definition toy_run (ops : list Op) (o : OS) : AssetWriter * OS :=
  @run toy_External recorderFactory ops o.

Definition toy_Write (s : AssetWriter * OS) (w : Writable)
  : option error * AssetWriter * Writable * OS :=
  @AssetWriter_Write toy_External s.1 w s.2.

(** The scenarios of the tests: two assets; two assets with one declared
    hash; an asset whose blob cannot be opened; an opened writer without
    assets. *)
Definition two_assets : AssetWriter * OS :=
  toy_run [OpAddAssetBlobs [firstAssetBlob; secondAssetBlob]; OpOpen] quiet_OS.

Definition same_hash : AssetWriter * OS :=
  toy_run [OpOpen; OpAddAssetBlobs [firstAssetBlob];
           OpAddAssetBlobs [firstAssetReplaceBlob]] quiet_OS.


Definition opened_only : AssetWriter * OS := toy_run [OpOpen] quiet_OS.





(** Doubles for the fetchers: packages, blobs and images are their names,
    everything that starts with [http] is a URI, everything else an
    image. *)
Definition toy_FetchEnv : FetchEnv :=
  {| OciLayoutPackage := string;
     Image := string;
     Ctx := unit;
     context_Background := tt;
     os_Getwd := inr "/work";
     GetLocatorType := λ assetName _,
       if String.prefix "http" assetName then URILocator else ImageLocator;
     LocatorType_String := λ l,
       match l with
       | InvalidLocator => "InvalidLocator"
       | URILocator => "URILocator"
       | FilepathLocator => "FilepathLocator"
       | ImageLocator => "ImageLocator"
       end |}.

Definition toy_url_Parse (s : string) : error + URL :=
  if String.prefix "https://" s then inr {| Scheme := "https"; URL_String := s |}
  else if String.prefix "http://" s then inr {| Scheme := "http"; URL_String := s |}
  else if String.prefix "file://" s then inr {| Scheme := "file"; URL_String := s |}
  else inl (errors_New "missing protocol scheme").

Definition toy_URIEnv : @URIEnv toy_FetchEnv :=
  Build_URIEnv toy_FetchEnv string
    toy_url_Parse
    (λ _ uri, inr uri)
    (λ assetBlob,
       if String.prefix "https://example.com/not-oci" assetBlob
       then inl (errors_New "not an OCI layout")
       else inr assetBlob)
    (λ uri, inr uri)
    (λ _ _ names, (names, None)).

(** A façade whose image strategy cannot pull [bad-image]. *)
Definition toy_Fetcher : @Fetcher toy_FetchEnv :=
  @Build_Fetcher toy_FetchEnv []
    (λ _ _ _ names, (names, None))
    (λ _ _ names, (names, None))
    (λ _ _ _ names,
       if decide (names = ["bad-image"])
       then ([], Some (errors_New "pull failed"))
       else (names, None)).

(** A writer with a readable blob followed by the mock. *)
Definition partly_unreadable : AssetWriter * OS :=
  toy_run [OpOpen; OpAddAssetBlobs [secondAssetBlob; mockBlob]] quiet_OS.

(** A system that holds files of its own. *)
Definition busy_OS : OS :=
  {| files := {[ "/etc/hosts" := list_byte_of_string "127.0.0.1 localhost" ]};
     dirs := {[ "/etc" ]}; TMPDIR := "/tmp"; rand := ["042"]; faults := [] |}.

Definition busy_opened : option error * AssetWriter * OS :=
  AssetWriter_Open (NewLayerWriter recorderFactory) busy_OS.

Definition busy_closed : option error * AssetWriter * OS :=
  AssetWriter_Close busy_opened.1.2 busy_opened.2.

(** [Write] on the writer with the mock, and [Write] twice on the writer
    with two assets, the second time into the target of the first. *)
Definition partly_written : option error * AssetWriter * Writable * OS :=
  toy_Write partly_unreadable fresh_target.

Definition two_written : option error * AssetWriter * Writable * OS :=
  toy_Write two_assets fresh_target.

Definition two_rewritten : option error * AssetWriter * Writable * OS :=
  toy_Write (two_written.1.1.2, two_written.2) two_written.1.2.

(** The writer with the mock on the system with files of its own:
    [Write], which fails, then [Close]. *)
Definition busy_partly : AssetWriter * OS :=
  toy_run [OpOpen; OpAddAssetBlobs [secondAssetBlob; mockBlob]] busy_OS.

Definition busy_written : option error * AssetWriter * Writable * OS :=
  toy_Write busy_partly fresh_target.

Definition busy_written_closed : option error * AssetWriter * OS :=
  AssetWriter_Close busy_written.1.1.2 busy_written.2.

(** An asset whose declared hash is not a digest but a path that climbs
    out of the directory it is joined to. *)
Definition escapingAsset : AssetInfo.t :=
  {| AssetInfo.ID := "escaping-asset"; AssetInfo.Name := "Escaping AssetInfo";
     AssetInfo.Version := "1.2.3"; AssetInfo.URI := "https://escaping-asset-uri";
     AssetInfo.Sha256 := "../escaped";
     AssetInfo.Stacks := ["io.buildpacks.stacks.bionic"] |}.

Definition escapingBlob : Blob := NewFakeBlob escapingAsset "escaping contents".

Definition escaping : AssetWriter * OS :=
  toy_run [OpOpen; OpAddAssetBlobs [escapingBlob]] quiet_OS.

Definition escaping_written : option error * AssetWriter * Writable * OS :=
  toy_Write escaping fresh_target.

Definition escaping_closed : option error * AssetWriter * OS :=
  AssetWriter_Close escaping_written.1.1.2 escaping_written.2.

(** A locator that knows file paths and rejects the empty name, and a
    façade over it whose strategies answer with the names they are given. *)
Definition strict_FetchEnv : FetchEnv :=
  {| OciLayoutPackage := string;
     Image := string;
     Ctx := unit;
     context_Background := tt;
     os_Getwd := inr "/work";
     GetLocatorType := λ assetName _,
       if String.eqb assetName "" then InvalidLocator
       else if String.prefix "http" assetName then URILocator
       else if String.prefix "/" assetName then FilepathLocator
       else ImageLocator;
     LocatorType_String := λ l,
       match l with
       | InvalidLocator => "InvalidLocator"
       | URILocator => "URILocator"
       | FilepathLocator => "FilepathLocator"
       | ImageLocator => "ImageLocator"
       end |}.

Definition strict_Fetcher : @Fetcher strict_FetchEnv :=
  @Build_Fetcher strict_FetchEnv []
    (λ _ _ _ names, (names, None))
    (λ _ _ names, (names, None))
    (λ _ _ _ names, (names, None)).

(** A process whose working directory is gone. *)
Definition lost_FetchEnv : FetchEnv :=
  {| OciLayoutPackage := string;
     Image := string;
     Ctx := unit;
     context_Background := tt;
     os_Getwd := inl (errors_New "getwd: no such file or directory");
     GetLocatorType := λ _ _, ImageLocator;
     LocatorType_String := λ _, "ImageLocator" |}.

Definition lost_Fetcher : @Fetcher lost_FetchEnv :=
  @Build_Fetcher lost_FetchEnv []
    (λ _ _ _ names, (names, None))
    (λ _ _ names, (names, None))
    (λ _ _ _ names, (names, None)).

(** An image fetcher that finds every image but [bad-image], in the daemon
    only. *)
Definition toy_ImgFetcher_Fetch (c : @Ctx toy_FetchEnv) (name : string)
  (daemon : bool) (pullPolicy : PullPolicy) : error + @Image toy_FetchEnv :=
  if negb daemon then inl (errors_New "no registry")
  else if String.eqb name "bad-image" then inl (errors_New "pull failed")
  else inr name.

(** The file information of a file with two links. *)
Definition linked_file : ByHandleFileInformation :=
  {| NumberOfLinks := 2; FileIndexHigh := 1; FileIndexLow := 5 |}.

(** * Properties *)

(** ** [path.Join] *)

Example path_Join_cnb : path.Join ["/cnb"] = "/cnb".
Proof. reflexivity. Qed.

Example path_Join_cnb_assets : path.Join ["/cnb"; "assets"] = "/cnb/assets".
Proof. reflexivity. Qed.

Example path_Join_first_sha :
  path.Join ["/cnb"; "assets"; "first-sha256"] = "/cnb/assets/first-sha256".
Proof. reflexivity. Qed.

(** Declared hashes that are not a single clean element do not name a file
    of their own below [/cnb/assets]. *)
Example path_Join_dotdot : path.Join ["/cnb"; "assets"; "../x"] = "/cnb/x".
Proof. reflexivity. Qed.

Example path_Join_empty_sha : path.Join ["/cnb"; "assets"; ""] = "/cnb/assets".
Proof. reflexivity. Qed.

Example path_Clean_relative : path.Clean "a/../../b/./c//" = "../b/c".
Proof. reflexivity. Qed.




Lemma Clean_nonempty (p : string) : path.Clean p ≠ "".
Proof.
  unfold path.Clean. destruct p as [|c p]; [done|].
  destruct (Ascii.eqb c path.slash); [done|].
  destruct (String.eqb_spec
              (path.join (rev (fold_left (path.clean_step false)
                                         (path.split (String c p)) []))) "");
    [done|done].
Qed.

Lemma Join_nonempty (d e : string) : e ≠ "" → path.Join [d; e] ≠ "".
Proof.
  intros He. simpl.
  destruct (String.eqb_spec d ""); [|apply Clean_nonempty].
  destruct (String.eqb_spec e ""); [done|apply Clean_nonempty].
Qed.

(** ** The asset layer *)

Section LayerProofs.

Context `{External} {TW : Type} `{!TarWriterFactory TW}.



End LayerProofs.

(** ** The writer *)

Section WriterProofs.

Context `{External}.


Lemma set_LayerDiffID_twice (m : AssetValue.t) (d d' : string) :
  set_LayerDiffID (set_LayerDiffID m d) d' = set_LayerDiffID m d'.
Proof. reflexivity. Qed.

Lemma set_LayerDiffID_ToAssetValue (a : AssetInfo.t) (d d' : string) :
  set_LayerDiffID (ToAssetValue a d) d' = ToAssetValue a d'.
Proof. reflexivity. Qed.

Lemma set_LayerDiffID_from (m : AssetValue.t) (a : AssetInfo.t) (d : string) :
  set_LayerDiffID m "" = ToAssetValue a "" →
  set_LayerDiffID m d = ToAssetValue a d.
Proof.
  intros Heq.
  rewrite <- (set_LayerDiffID_twice m "" d), Heq. reflexivity.
Qed.

(** *** The layer file *)

Lemma os_OpenFile_ok (name : string) (o o' : OS) :
  os_OpenFile name o = (None, o') → files o' !! name = Some [].
Proof.
  unfold os_OpenFile, next_fault.
  destruct (faults o) as [|[e|] rest]; intros [= <-]; cbn;
    apply lookup_insert_eq.
Qed.

Lemma file_Write_ok (name : string) (p : bytes) (o o' : OS) :
  file_Write name p o = (None, o') →
  files o' !! name = Some (default [] (files o !! name) ++ p).
Proof.
  unfold file_Write, next_fault.
  destruct (faults o) as [|[e|] rest]; intros [= <-]; cbn;
    apply lookup_insert_eq.
Qed.

(** A layer file is created only from a stream that ended without error;
    its diff-id is the hash of the bytes of the stream, and these bytes are
    the content of the file. *)
Lemma createAssetLayerFile_ok (name : string) (rc : ReadCloser) (o o' : OS) (d : string) :
  createAssetLayerFile name rc o = (inr d, o') →
  rc.2 = None
  ∧ d = hex_EncodeToString (sha256_Sum rc.1)
  ∧ files o' !! name = Some rc.1.
Proof.
  unfold createAssetLayerFile.
  destruct (os_OpenFile name o) as [[e|] o1] eqn:Hopen; [done|].
  unfold io_Copy_tee. destruct rc as [p rerr].
  destruct (file_Write name p o1) as [[e|] o2] eqn:Hwrite; [done|].
  destruct rerr as [e|]; [done|].
  intros [= <- <-]. cbn.
  apply os_OpenFile_ok in Hopen. apply file_Write_ok in Hwrite.
  rewrite Hopen in Hwrite. done.
Qed.


(** Creating a layer file touches no other file. *)
Lemma createAssetLayerFile_other (name p : string) (rc : ReadCloser) (o o' : OS)
  (r : error + string) :
  createAssetLayerFile name rc o = (r, o') → p ≠ name →
  files o' !! p = files o !! p.
Proof.
  intros Hrun Hne. revert Hrun. unfold createAssetLayerFile.
  assert (∀ o1 o2 err, os_OpenFile name o1 = (err, o2) →
                       files o2 !! p = files o1 !! p) as Hopen.
  { intros o1 o2 err. unfold os_OpenFile, next_fault.
    destruct (faults o1) as [|[e|] rest]; intros [= <- <-]; cbn; try done;
      by rewrite lookup_insert_ne. }
  assert (∀ q o1 o2 err, file_Write name q o1 = (err, o2) →
                         files o2 !! p = files o1 !! p) as Hwrite.
  { intros q o1 o2 err. unfold file_Write, next_fault.
    destruct (faults o1) as [|[e|] rest]; intros [= <- <-]; cbn; try done;
      by rewrite lookup_insert_ne. }
  destruct (os_OpenFile name o) as [[e|] o1] eqn:Ho.
  { intros [= <- <-]. by apply (Hopen o o1 (Some e)). }
  apply Hopen in Ho. unfold io_Copy_tee. destruct rc as [q rerr].
  destruct (file_Write name q o1) as [werr o2] eqn:Hw. apply Hwrite in Hw.
  destruct werr as [e|], rerr as [e'|]; intros [= <- <-]; congruence.
Qed.


(** *** One turn of the loop *)

Lemma same_writer_refl (lw : AssetWriter) : same_writer lw lw.
Proof. by repeat split. Qed.

Lemma same_writer_trans (lw1 lw2 lw3 : AssetWriter) :
  same_writer lw1 lw2 → same_writer lw2 lw3 → same_writer lw1 lw3.
Proof.
  intros (Ht1 & Hb1 & Hm1 & Hf1) (Ht2 & Hb2 & Hm2 & Hf2).
  repeat split; [congruence | congruence | | congruence].
  intros k. by rewrite Hm2, Hm1.
Qed.

Lemma only_layers_refl (w : Writable) : only_layers w w.
Proof. split; [done|]. exists []. by rewrite app_nil_r. Qed.

Lemma only_layers_trans (w1 w2 w3 : Writable) :
  only_layers w1 w2 → only_layers w2 w3 → only_layers w1 w3.
Proof.
  intros (Ha1 & l1 & Hc1 & Hl1) (Ha2 & l2 & Hc2 & Hl2).
  split; [congruence|]. exists (l1 ++ l2).
  split; [by rewrite Hc2, Hc1, app_assoc | by apply Forall_app].
Qed.

Lemma only_layers_AddLayerWithDiffID (p d : string) (w : Writable) :
  only_layers w (AddLayerWithDiffID p d w).2.
Proof. split; [done|]. exists [CallAddLayerWithDiffID p d]. by repeat constructor. Qed.

Lemma same_writer_set_entry (lw : AssetWriter) (k d : string) (m : AssetValue.t) :
  metadata lw !! k = Some m →
  same_writer lw (set_metadata (<[k := set_LayerDiffID m d]> (metadata lw)) lw).
Proof.
  intros Hm. split; [done|]. split; [done|]. split; [|done]. intros k'. cbn.
  destruct (decide (k = k')) as [<-|Hne].
  - by rewrite lookup_insert_eq, Hm.
  - by rewrite lookup_insert_ne.
Qed.

(** Whatever the outcome, one turn keeps the writer's shape and adds at
    most a layer to the target. *)
Lemma Write_blob_any (b : Blob) (lw lw' : AssetWriter) (w w' : Writable)
  (o o' : OS) (err : option error) :
  Write_blob b lw w o = (err, lw', w', o') →
  same_writer lw lw' ∧ only_layers w w'.
Proof.
  unfold Write_blob.
  destruct (createAssetLayerFile _ _ o) as [[e|d] o1].
  { intros [= <- <- <- <-]. split; [apply same_writer_refl | apply only_layers_refl]. }
  pose proof (only_layers_AddLayerWithDiffID
                (filepath_Join [tmpDir lw; AssetInfo.Sha256 (AssetDescriptor b)])
                ("sha256:" +:+ d) w) as Hlayers.
  destruct (AddLayerWithDiffID _ _ w) as [[e|] w1]; cbn in Hlayers.
  { intros [= <- <- <- <-]. split; [apply same_writer_refl | done]. }
  destruct (metadata lw !! AssetInfo.Sha256 (AssetDescriptor b)) as [m|] eqn:Hm.
  - intros [= <- <- <- <-]. split; [by apply same_writer_set_entry | done].
  - intros [= <- <- <- <-]. split; [apply same_writer_refl | done].
Qed.

(** A turn that succeeds: the stream ended well, the layer was handed to
    the target under its content-derived diff-id, and the entry of the
    declared hash received that diff-id. *)
Lemma Write_blob_ok (b : Blob) (lw lw' : AssetWriter) (w w' : Writable) (o o' : OS) :
  Write_blob b lw w o = (None, lw', w', o') →
  (assetLayerReader (writerFactory lw) b).2 = None
  ∧ files o' !! filepath_Join [tmpDir lw; declared b]
    = Some (assetLayerReader (writerFactory lw) b).1
  ∧ calls w' = calls w ++ [layer_call (writerFactory lw) (tmpDir lw) b]
  ∧ ∃ m, metadata lw !! declared b = Some m
         ∧ lw' = set_metadata
                   (<[declared b :=
                        set_LayerDiffID m
                          (diffID_of (assetLayerReader (writerFactory lw) b).1)]>
                      (metadata lw)) lw.
Proof.
  unfold Write_blob, declared, layer_call, diffID_of.
  destruct (createAssetLayerFile _ _ o) as [[e|d] o1] eqn:Hfile; [done|].
  apply createAssetLayerFile_ok in Hfile as (Hend & -> & Hcontent).
  unfold AddLayerWithDiffID, invoke.
  destruct (answer w (calls w) _) as [e|]; [done|].
  destruct (metadata lw !! AssetInfo.Sha256 (AssetDescriptor b)) as [m|] eqn:Hm;
    [|done].
  intros [= <- <- <-]. cbn. repeat split; [done| done |]. by exists m.
Qed.

Lemma Write_blob_other_files (b : Blob) (lw lw' : AssetWriter) (w w' : Writable)
  (o o' : OS) (err : option error) (p : string) :
  Write_blob b lw w o = (err, lw', w', o') →
  p ≠ layer_file (tmpDir lw) b →
  files o' !! p = files o !! p.
Proof.
  unfold Write_blob, layer_file, declared. intros Hrun Hne. revert Hrun.
  destruct (createAssetLayerFile _ _ o) as [r o1] eqn:Hfile.
  apply (createAssetLayerFile_other _ p) in Hfile; [|done].
  destruct r as [e|d]; [by intros [= <- <- <- <-]|].
  destruct (AddLayerWithDiffID _ _ w) as [[e|] w1]; [by intros [= <- <- <- <-]|].
  destruct (metadata lw !! AssetInfo.Sha256 (AssetDescriptor b));
    by intros [= <- <- <- <-].
Qed.

(** A turn that fails does so in one of three ways. *)
Lemma Write_blob_error (b : Blob) (lw lw' : AssetWriter) (w w' : Writable)
  (o o' : OS) (e : error) :
  Write_blob b lw w o = (Some e, lw', w', o') →
  (∃ cause, e = errors_Wrap cause "unable to create asset layer file")
  ∨ (∃ cause, e = errors_Wrap cause "unable to write layer")
  ∨ (e = fmt_Errorf ("unknown sha256 asset value " +:+ declared b)
     ∧ metadata lw !! declared b = None).
Proof.
  unfold Write_blob, declared.
  destruct (createAssetLayerFile _ _ o) as [[e1|d] o1].
  { intros [= <- <- <- <-]. left. by eexists. }
  destruct (AddLayerWithDiffID _ _ w) as [[e2|] w1].
  { intros [= <- <- <- <-]. right; left. by eexists. }
  destruct (metadata lw !! AssetInfo.Sha256 (AssetDescriptor b)) as [m|] eqn:Hm;
    [done|].
  intros [= <- <- <- <-]. right; right. done.
Qed.


(** *** The loop *)

Lemma Write_loop_any (bs : list Blob) (lw lw' : AssetWriter) (w w' : Writable)
  (o o' : OS) (err : option error) :
  Write_loop bs lw w o = (err, lw', w', o') →
  same_writer lw lw' ∧ only_layers w w'.
Proof.
  revert lw w o. induction bs as [|b bs IH]; intros lw w o; cbn.
  - intros [= <- <- <- <-]. split; [apply same_writer_refl | apply only_layers_refl].
  - destruct (Write_blob b lw w o) as [[[err1 lw1] w1] o1] eqn:Hb.
    apply Write_blob_any in Hb as [Hlw Hw].
    destruct err1 as [e|].
    + by intros [= <- <- <- <-].
    + intros [Hlw' Hw']%IH. split.
      * by apply (same_writer_trans _ lw1).
      * by apply (only_layers_trans _ w1).
Qed.

Lemma same_writer_lookup_None (lw lw' : AssetWriter) (k : string) :
  same_writer lw lw' → metadata lw' !! k = None → metadata lw !! k = None.
Proof.
  intros (_ & _ & Hm & _) Hk. specialize (Hm k). rewrite Hk in Hm.
  by destruct (metadata lw !! k).
Qed.

(** The loop succeeds only when every turn did: the target received one
    layer per blob, in order, and each declared hash carries the diff-id of
    the last blob that declared it. *)
Lemma Write_loop_ok (bs : list Blob) (lw lw' : AssetWriter) (w w' : Writable)
  (o o' : OS) :
  Write_loop bs lw w o = (None, lw', w', o') →
  calls w' = calls w ++ map (layer_call (writerFactory lw) (tmpDir lw)) bs
  ∧ Forall (λ b, (assetLayerReader (writerFactory lw) b).2 = None) bs
  ∧ ∀ k, metadata lw' !! k
         = match last_declared k bs with
           | Some b =>
               (λ m, set_LayerDiffID m
                       (diffID_of (assetLayerReader (writerFactory lw) b).1))
                 <$> metadata lw !! k
           | None => metadata lw !! k
           end.
Proof.
  revert lw w o. induction bs as [|b bs IH]; intros lw w o; cbn.
  - intros [= <- <- <-]. by rewrite app_nil_r.
  - destruct (Write_blob b lw w o) as [[[err1 lw1] w1] o1] eqn:Hb.
    destruct err1 as [e|]; [done|].
    apply Write_blob_ok in Hb as (Hend & _ & Hcalls & m & Hm & ->).
    intros (Hcalls' & Hends & Hmd)%IH. cbn in *.
    split; [by rewrite Hcalls', Hcalls, <- app_assoc|].
    split; [by constructor|].
    intros k. rewrite Hmd.
    destruct (last_declared k bs) as [b'|].
    + destruct (decide (declared b = k)) as [<-|Hne].
      * by rewrite lookup_insert_eq, Hm.
      * by rewrite lookup_insert_ne.
    + destruct (String.eqb_spec (declared b) k) as [<-|Hne].
      * by rewrite lookup_insert_eq, Hm.
      * by rewrite lookup_insert_ne.
Qed.

(** After a successful loop every layer file holds the stream of the
    last blob written to it; other files are as they were. *)
Lemma Write_loop_files (bs : list Blob) (lw lw' : AssetWriter) (w w' : Writable)
  (o o' : OS) (p : string) :
  Write_loop bs lw w o = (None, lw', w', o') →
  files o' !! p
  = match last_at (tmpDir lw) p bs with
    | Some b => Some (assetLayerReader (writerFactory lw) b).1
    | None => files o !! p
    end.
Proof.
  revert lw w o. induction bs as [|b bs IH]; intros lw w o;
    cbn [Write_loop last_at].
  - by intros [= <- <- <-].
  - destruct (Write_blob b lw w o) as [[[err1 lw1] w1] o1] eqn:Hb.
    destruct err1 as [e|]; [done|].
    pose proof Hb as [(Htmp & _ & _ & Hfac) _]%Write_blob_any.
    intros Hrest%IH. rewrite Hrest, Htmp, Hfac.
    destruct (last_at (tmpDir lw) p bs) as [b'|]; [done|].
    destruct (String.eqb_spec (layer_file (tmpDir lw) b) p) as [<-|Hne].
    + apply Write_blob_ok in Hb as (_ & Hfile & _). exact Hfile.
    + apply (Write_blob_other_files b lw lw1 w w1 o o1 None p Hb). congruence.
Qed.

Lemma Write_loop_error (bs : list Blob) (lw lw' : AssetWriter) (w w' : Writable)
  (o o' : OS) (e : error) :
  Write_loop bs lw w o = (Some e, lw', w', o') →
  (∃ cause, e = errors_Wrap cause "unable to create asset layer file")
  ∨ (∃ cause, e = errors_Wrap cause "unable to write layer")
  ∨ (∃ b, b ∈ bs ∧ e = fmt_Errorf ("unknown sha256 asset value " +:+ declared b)
          ∧ metadata lw !! declared b = None).
Proof.
  revert lw w o. induction bs as [|b bs IH]; intros lw w o; cbn; [done|].
  destruct (Write_blob b lw w o) as [[[err1 lw1] w1] o1] eqn:Hb.
  destruct err1 as [e1|].
  - intros [= <- <- <- <-].
    apply Write_blob_error in Hb as [?|[?|[? ?]]]; [by left | by right; left |].
    right; right. exists b. split; [by left | done].
  - apply Write_blob_any in Hb as [Hlw _].
    intros [?|[?|(b' & Hin & He & Hnone)]]%IH; [by left | by right; left |].
    right; right. exists b'. split; [by right|]. split; [done|].
    by apply (same_writer_lookup_None lw lw1).
Qed.


(** *** [last_declared] *)

Lemma last_declared_Some (k : string) (bs : list Blob) (b : Blob) :
  last_declared k bs = Some b → declared b = k ∧ b ∈ bs.
Proof.
  induction bs as [|b0 bs IH]; cbn; [done|].
  destruct (last_declared k bs) as [b'|].
  - intros [= ->]. destruct IH as [? ?]; [done|]. split; [done | by right].
  - destruct (String.eqb_spec (declared b0) k); [|done].
    intros [= ->]. split; [done | by left].
Qed.

Lemma last_declared_None (k : string) (bs : list Blob) :
  last_declared k bs = None ↔ k ∉ declared <$> bs.
Proof.
  induction bs as [|b0 bs IH]; cbn.
  - split; [intros _; apply not_elem_of_nil | done].
  - rewrite not_elem_of_cons.
    destruct (last_declared k bs) as [b'|].
    + split; [done|]. intros [_ Hk]. by apply IH in Hk.
    + destruct (String.eqb_spec (declared b0) k) as [Heq|Hne].
      * split; [done|]. intros [Hk _]. by destruct Hk.
      * split; [|done]. intros _. split; [done | by apply IH].
Qed.

Lemma last_declared_app (k : string) (bs new : list Blob) :
  last_declared k (bs ++ new)
  = match last_declared k new with
    | Some b => Some b
    | None => last_declared k bs
    end.
Proof.
  induction bs as [|b0 bs IH]; cbn.
  - by destruct (last_declared k new).
  - rewrite IH. by destruct (last_declared k new).
Qed.

Lemma last_declared_last (k : string) (b : Blob) (post : list Blob) :
  declared b = k → Forall (λ b', declared b' ≠ k) post →
  last_declared k (b :: post) = Some b.
Proof.
  intros Hk Hpost. cbn.
  assert (last_declared k post = None) as ->.
  { apply last_declared_None. intros (b' & Hb' & Hin)%list_elem_of_fmap.
    rewrite Forall_forall in Hpost. by apply (Hpost b'). }
  destruct (String.eqb_spec (declared b) k); done.
Qed.

Lemma last_declared_NoDup (bs : list Blob) (b : Blob) :
  NoDup (declared <$> bs) → b ∈ bs → last_declared (declared b) bs = Some b.
Proof.
  induction bs as [|b0 bs IH]; cbn.
  - intros _ Hin. by apply elem_of_nil in Hin.
  - intros [Hnotin Hnodup]%NoDup_cons [->|Hin]%elem_of_cons.
    + apply last_declared_None in Hnotin as ->.
      by destruct (String.eqb_spec (declared b0) (declared b0)).
    + by rewrite (IH Hnodup Hin).
Qed.

Lemma last_at_Some (dir p : string) (bs : list Blob) (b : Blob) :
  last_at dir p bs = Some b → layer_file dir b = p ∧ b ∈ bs.
Proof.
  induction bs as [|b0 bs IH]; cbn [last_at]; [done|].
  destruct (last_at dir p bs) as [b'|].
  - intros [= ->]. destruct IH as [? ?]; [done|]. split; [done | by right].
  - destruct (String.eqb_spec (layer_file dir b0) p); [|done].
    intros [= ->]. split; [done | by left].
Qed.

Lemma last_at_None (dir p : string) (bs : list Blob) (b : Blob) :
  last_at dir p bs = None → b ∈ bs → layer_file dir b ≠ p.
Proof.
  induction bs as [|b0 bs IH]; cbn [last_at].
  - intros _ Hin. by apply elem_of_nil in Hin.
  - destruct (last_at dir p bs) as [b'|]; [done|].
    destruct (String.eqb_spec (layer_file dir b0) p) as [|Hne]; [done|].
    intros _ [->|Hin]%elem_of_cons; [done | by apply IH].
Qed.

(** A blob that shares its layer file with no other blob is the last one
    written to it. *)
Lemma last_at_unique (dir : string) (bs : list Blob) (b : Blob) :
  b ∈ bs →
  (∀ b', b' ∈ bs → layer_file dir b' = layer_file dir b → b' = b) →
  last_at dir (layer_file dir b) bs = Some b.
Proof.
  intros Hin Huniq.
  destruct (last_at dir (layer_file dir b) bs) as [b'|] eqn:Hlast.
  - apply last_at_Some in Hlast as [Hp Hin']. f_equal. by apply Huniq.
  - by destruct (last_at_None dir _ bs b Hlast Hin).
Qed.

(** *** The invariant *)

Lemma consistent_new (writerFactory : archive_TarWriterFactory) :
  consistent (NewLayerWriter writerFactory).
Proof. intros k. cbn. by rewrite lookup_empty. Qed.

Lemma consistent_same_writer (lw lw' : AssetWriter) :
  blobs lw' = blobs lw →
  (∀ k, (λ v, set_LayerDiffID v "") <$> metadata lw' !! k
        = (λ v, set_LayerDiffID v "") <$> metadata lw !! k) →
  consistent lw → consistent lw'.
Proof. intros Hb Hm Hc k. by rewrite Hm, Hb. Qed.

Lemma AddAssetBlobs_lookup (aBlobs : list Blob) (md : AssetMap) (k : string) :
  fold_left
    (λ md b,
       let descriptor := AssetDescriptor b in
       let assetMetadata := descriptor in
       <[AssetInfo.Sha256 descriptor := ToAssetValue assetMetadata ""]> md)
    aBlobs md !! k
  = match last_declared k aBlobs with
    | Some b => Some (ToAssetValue (AssetDescriptor b) "")
    | None => md !! k
    end.
Proof.
  revert md. induction aBlobs as [|b bs IH]; intros md; cbn; [done|].
  rewrite IH. destruct (last_declared k bs) as [b'|]; [done|].
  unfold declared. destruct (String.eqb_spec (AssetInfo.Sha256 (AssetDescriptor b)) k)
    as [<-|Hne].
  - by rewrite lookup_insert_eq.
  - by rewrite lookup_insert_ne.
Qed.

Lemma consistent_AddAssetBlobs (aBlobs : list Blob) (lw : AssetWriter) :
  consistent lw → consistent (AssetWriter_AddAssetBlobs aBlobs lw).
Proof.
  intros Hc k. unfold AssetWriter_AddAssetBlobs. cbn.
  rewrite AddAssetBlobs_lookup, last_declared_app.
  destruct (last_declared k aBlobs); [done | apply Hc].
Qed.

Lemma Open_shape (lw lw' : AssetWriter) (o o' : OS) (err : option error) :
  AssetWriter_Open lw o = (err, lw', o') →
  blobs lw' = blobs lw ∧ metadata lw' = metadata lw.
Proof.
  unfold AssetWriter_Open.
  destruct (negb _); [by intros [= <- <- <-]|].
  destruct (ioutil_TempDir _ o) as [[e|tmp] o1]; by intros [= <- <- <-].
Qed.

Lemma Close_shape (lw lw' : AssetWriter) (o o' : OS) (err : option error) :
  AssetWriter_Close lw o = (err, lw', o') →
  blobs lw' = blobs lw ∧ metadata lw' = metadata lw.
Proof.
  unfold AssetWriter_Close.
  destruct (String.eqb _ _); [by intros [= <- <- <-]|].
  destruct (os_RemoveAll _ o) as [[e|] o1]; by intros [= <- <- <-].
Qed.

Lemma Write_any (lw lw' : AssetWriter) (w w' : Writable) (o o' : OS)
  (err : option error) :
  AssetWriter_Write lw w o = (err, lw', w', o') →
  same_writer lw lw' ∧ answer w' = answer w.
Proof.
  unfold AssetWriter_Write.
  destruct (String.eqb _ _).
  { intros [= <- <- <- <-]. split; [apply same_writer_refl | done]. }
  destruct (Write_loop (blobs lw) lw w o) as [[[err1 lw1] w1] o1] eqn:Hloop.
  apply Write_loop_any in Hloop as [Hlw [Hanswer _]].
  destruct err1 as [e|]; [by intros [= <- <- <- <-]|].
  unfold dist_SetLabel, SetLabel, invoke.
  by intros [= <- <- <- <-].
Qed.

Lemma consistent_step (s : AssetWriter * OS) (op : Op) :
  consistent s.1 → consistent (step s op).1.
Proof.
  destruct s as [lw o]. intros Hc. destruct op as [| |w|aBlobs]; cbn.
  - destruct (AssetWriter_Open lw o) as [[err lw'] o'] eqn:Hop.
    apply Open_shape in Hop as [Hb Hm]. cbn.
    apply (consistent_same_writer lw); [done | by rewrite Hm | done].
  - destruct (AssetWriter_Close lw o) as [[err lw'] o'] eqn:Hop.
    apply Close_shape in Hop as [Hb Hm]. cbn.
    apply (consistent_same_writer lw); [done | by rewrite Hm | done].
  - destruct (AssetWriter_Write lw w o) as [[[err lw'] w'] o'] eqn:Hop.
    apply Write_any in Hop as [(_ & Hb & Hm & _) _]. cbn.
    by apply (consistent_same_writer lw).
  - by apply consistent_AddAssetBlobs.
Qed.

Lemma consistent_fold (ops : list Op) (s : AssetWriter * OS) :
  consistent s.1 → consistent (fold_left step ops s).1.
Proof.
  revert s. induction ops as [|op ops IH]; intros s Hc; cbn; [done|].
  apply IH. by apply consistent_step.
Qed.

(** Every writer built through the public operations is consistent. *)
Lemma reachable_consistent (lw : AssetWriter) : reachable lw → consistent lw.
Proof.
  intros (f & ops & o & <-). apply consistent_fold, consistent_new.
Qed.

(** In a consistent writer every blob has its entry. *)
Lemma consistent_lookup (lw : AssetWriter) (b : Blob) :
  consistent lw → b ∈ blobs lw → is_Some (metadata lw !! declared b).
Proof.
  intros Hc Hin. specialize (Hc (declared b)).
  destruct (metadata lw !! declared b) as [v|]; [by eexists|].
  cbn in Hc. symmetry in Hc. apply fmap_None, last_declared_None in Hc.
  destruct Hc. apply list_elem_of_fmap. by exists b.
Qed.

Lemma consistent_dom (lw : AssetWriter) :
  consistent lw → dom (metadata lw) = list_to_set (declared <$> blobs lw).
Proof.
  intros Hc. apply set_eq. intros k.
  rewrite elem_of_dom, elem_of_list_to_set. specialize (Hc k).
  split.
  - intros [v Hv]. rewrite Hv in Hc. cbn in Hc.
    destruct (last_declared k (blobs lw)) as [b|] eqn:Hlast; [|done].
    apply last_declared_Some in Hlast as [<- Hin].
    apply list_elem_of_fmap. by exists b.
  - intros Hin. destruct (metadata lw !! k) as [v|]; [by eexists|].
    cbn in Hc. symmetry in Hc. by apply fmap_None, last_declared_None in Hc.
Qed.

(** *** [Write] as a whole *)

Lemma Write_ok (lw lw' : AssetWriter) (w w' : Writable) (o o' : OS) :
  AssetWriter_Write lw w o = (None, lw', w', o') →
  tmpDir lw ≠ ""
  ∧ blobs lw' = blobs lw
  ∧ calls w' = calls w ++ map (layer_call (writerFactory lw) (tmpDir lw)) (blobs lw)
                      ++ [CallSetLabel LayersLabel (json_Marshal (metadata lw'))]
  ∧ Forall (λ b, (assetLayerReader (writerFactory lw) b).2 = None) (blobs lw)
  ∧ ∀ k, metadata lw' !! k
         = match last_declared k (blobs lw) with
           | Some b =>
               (λ m, set_LayerDiffID m (diffID_of (assetLayerReader (writerFactory lw) b).1))
                 <$> metadata lw !! k
           | None => metadata lw !! k
           end.
Proof.
  unfold AssetWriter_Write.
  destruct (String.eqb_spec (tmpDir lw) "") as [|Hopen]; [done|].
  destruct (Write_loop (blobs lw) lw w o) as [[[err1 lw1] w1] o1] eqn:Hloop.
  destruct err1 as [e|]; [done|].
  pose proof Hloop as [(_ & Hblobs & _) _]%Write_loop_any.
  apply Write_loop_ok in Hloop as (Hcalls & Hends & Hmd).
  unfold dist_SetLabel, SetLabel, invoke.
  destruct (answer w1 (calls w1) _) as [e|]; [done|].
  intros [= <- <- <-]. cbn. rewrite Hcalls, <- app_assoc. done.
Qed.

Lemma Write_ok_files (lw lw' : AssetWriter) (w w' : Writable) (o o' : OS)
  (p : string) :
  AssetWriter_Write lw w o = (None, lw', w', o') →
  files o' !! p
  = match last_at (tmpDir lw) p (blobs lw) with
    | Some b => Some (assetLayerReader (writerFactory lw) b).1
    | None => files o !! p
    end.
Proof.
  unfold AssetWriter_Write.
  destruct (String.eqb (tmpDir lw) ""); [done|].
  destruct (Write_loop (blobs lw) lw w o) as [[[err1 lw1] w1] o1] eqn:Hloop.
  destruct err1 as [e|]; [done|].
  apply (Write_loop_files _ _ _ _ _ _ _ p) in Hloop.
  unfold dist_SetLabel, SetLabel, invoke.
  destruct (answer w1 (calls w1) _) as [e|]; [done|].
  by intros [= <- <- <-].
Qed.

(** The entry of a declared hash after a successful [Write] on a consistent
    writer: the identity of the last blob declaring it, with the diff-id of
    that blob's layer. *)
Lemma Write_ok_entry (lw lw' : AssetWriter) (w w' : Writable) (o o' : OS)
  (k : string) (b : Blob) :
  consistent lw →
  AssetWriter_Write lw w o = (None, lw', w', o') →
  last_declared k (blobs lw) = Some b →
  metadata lw' !! k
  = Some (ToAssetValue (AssetDescriptor b) (diffID_of (assetLayerReader (writerFactory lw) b).1)).
Proof.
  intros Hc (_ & _ & _ & _ & Hmd)%Write_ok Hlast.
  rewrite Hmd, Hlast. specialize (Hc k). rewrite Hlast in Hc. cbn in Hc.
  destruct (metadata lw !! k) as [v|]; [|done].
  cbn in *. f_equal. apply set_LayerDiffID_from. congruence.
Qed.

(** C1. For every sequence of blobs with pairwise distinct declared hashes
    added through [AddAssetBlobs] (the empty one included), a successful
    [Write] calls [AddLayerWithDiffID] on the target exactly once per blob,
    in order, before the single [SetLabel]; the resulting asset map has
    exactly one entry per blob; and the entry of each blob carries, as its
    [LayerDiffID], [sha256:] followed by the hex SHA-256 of the bytes of
    the tar stream built for that blob (a stream that ended without
    error), whatever hash the blob declared.  These bytes are the content
    of the blob's layer file, unless another blob was written to the same
    file. *)
Theorem Write_one_layer_per_blob (lw lw' : AssetWriter) (w w' : Writable) (o o' : OS) :
  reachable lw →
  NoDup (declared <$> blobs lw) →
  AssetWriter_Write lw w o = (None, lw', w', o') →
  calls w' = calls w ++ map (layer_call (writerFactory lw) (tmpDir lw)) (blobs lw)
                      ++ [CallSetLabel LayersLabel (json_Marshal (metadata lw'))]
  ∧ size (metadata lw') = length (blobs lw)
  ∧ ∀ b, b ∈ blobs lw →
      (assetLayerReader (writerFactory lw) b).2 = None
      ∧ (∃ v, metadata lw' !! declared b = Some v
              ∧ AssetValue.LayerDiffID v
                = "sha256:" +:+ hex_EncodeToString
                                  (sha256_Sum (assetLayerReader (writerFactory lw) b).1))
      ∧ ((∀ b', b' ∈ blobs lw →
                layer_file (tmpDir lw) b' = layer_file (tmpDir lw) b → b' = b) →
         files o' !! layer_file (tmpDir lw) b = Some (assetLayerReader (writerFactory lw) b).1).
Proof.
  intros Hc%reachable_consistent Hnodup Hwrite.
  pose proof Hwrite as (_ & Hblobs & Hcalls & Hends & _)%Write_ok.
  pose proof Hwrite as [(_ & _ & Hm & _) _]%Write_any.
  split; [done|]. split.
  - assert (consistent lw') as Hc' by by apply (consistent_same_writer lw).
    rewrite <- size_dom, (consistent_dom lw' Hc'), Hblobs.
    rewrite size_list_to_set by done. by rewrite length_fmap.
  - intros b Hin. split; [|split].
    + rewrite Forall_forall in Hends. by apply Hends.
    + eexists. split.
      * apply (Write_ok_entry lw lw' w w' o o'); [done | done |].
        by apply last_declared_NoDup.
      * reflexivity.
    + intros Huniq.
      rewrite (Write_ok_files lw lw' w w' o o' _ Hwrite).
      by rewrite (last_at_unique _ _ b Hin Huniq).
Qed.

(** C2. When two blobs B1 then B2 were added with the same declared hash H
    (B2 being the last blob that declares H), then after a successful
    [Write] the entry keyed H carries the identity fields of B2 (ID, Name,
    Version, URI, Stacks) and the diff-id of B2's layer: B1's entry is
    replaced. *)
Theorem Write_last_blob_wins (lw lw' : AssetWriter) (w w' : Writable) (o o' : OS)
  (pre mid post : list Blob) (B1 B2 : Blob) (H0 : string) :
  reachable lw →
  blobs lw = pre ++ B1 :: mid ++ B2 :: post →
  declared B1 = H0 →
  declared B2 = H0 →
  Forall (λ b, declared b ≠ H0) post →
  AssetWriter_Write lw w o = (None, lw', w', o') →
  ∃ v, metadata lw' !! H0 = Some v
       ∧ AssetValue.ID v = AssetInfo.ID (AssetDescriptor B2)
       ∧ AssetValue.Name v = AssetInfo.Name (AssetDescriptor B2)
       ∧ AssetValue.Version v = AssetInfo.Version (AssetDescriptor B2)
       ∧ AssetValue.URI v = AssetInfo.URI (AssetDescriptor B2)
       ∧ AssetValue.Stacks v = AssetInfo.Stacks (AssetDescriptor B2)
       ∧ AssetValue.LayerDiffID v
         = "sha256:" +:+ hex_EncodeToString (sha256_Sum (assetLayerReader (writerFactory lw) B2).1).
Proof.
  intros Hc%reachable_consistent Hblobs _ HB2 Hpost Hwrite.
  eexists. split.
  - apply (Write_ok_entry lw lw' w w' o o'); [done | done |].
    rewrite Hblobs.
    change (B1 :: mid ++ B2 :: post) with ((B1 :: mid) ++ B2 :: post).
    rewrite (app_assoc pre (B1 :: mid) (B2 :: post)), last_declared_app.
    by rewrite (last_declared_last H0 B2 post HB2 Hpost).
  - by repeat split.
Qed.

Lemma Write_error (lw lw' : AssetWriter) (w w' : Writable) (o o' : OS) (e : error) :
  AssetWriter_Write lw w o = (Some e, lw', w', o') →
  e = errors_New "AssetWriter must be opened before writing"
  ∨ (∃ cause, e = errors_Wrap cause "unable to create asset layer file")
  ∨ (∃ cause, e = errors_Wrap cause "unable to write layer")
  ∨ (∃ b, b ∈ blobs lw
          ∧ e = fmt_Errorf ("unknown sha256 asset value " +:+ declared b)
          ∧ metadata lw !! declared b = None)
  ∨ (∃ cause, e = errors_Wrap cause ("setting label " +:+ style_Symbol LayersLabel)).
Proof.
  unfold AssetWriter_Write.
  destruct (String.eqb _ _); [intros [= <- <- <- <-]; by left|].
  destruct (Write_loop (blobs lw) lw w o) as [[[err1 lw1] w1] o1] eqn:Hloop.
  destruct err1 as [e1|].
  - intros [= <- <- <- <-].
    apply Write_loop_error in Hloop as [?|[?|?]]; auto.
  - unfold dist_SetLabel, SetLabel, invoke.
    destruct (answer w1 (calls w1) _) as [e2|]; [|done].
    intros [= <- <- <- <-]. do 4 right. by eexists.
Qed.


(** C8. For every writer built through the public operations, each
    blob's declared hash has an entry in the map, so the lookup in
    [Write] succeeds at every turn of the loop: neither the loop nor
    [Write] as a whole ever returns the unknown-hash error. *)
Theorem Write_lookup_always_succeeds (lw : AssetWriter) (w : Writable) (o : OS) :
  reachable lw →
  (∀ b, b ∈ blobs lw → is_Some (metadata lw !! declared b))
  ∧ (∀ msg, (Write_loop (blobs lw) lw w o).1.1.1 ≠ Some (fmt_Errorf msg))
  ∧ (∀ msg, (AssetWriter_Write lw w o).1.1.1 ≠ Some (fmt_Errorf msg)).
Proof.
  intros Hc%reachable_consistent. split; [|split].
  - intros b Hin. by apply consistent_lookup.
  - intros msg.
    destruct (Write_loop (blobs lw) lw w o) as [[[err lw'] w'] o'] eqn:Hloop.
    cbn. intros ->.
    apply Write_loop_error in Hloop
      as [[? [=]]|[[? [=]]|(b & Hin & _ & Hnone)]].
    destruct (consistent_lookup lw b Hc Hin) as [v Hv]. congruence.
  - intros msg.
    destruct (AssetWriter_Write lw w o) as [[[err lw'] w'] o'] eqn:Hwrite.
    cbn. intros ->.
    apply Write_error in Hwrite
      as [[=]|[[? [=]]|[[? [=]]|[(b & Hin & _ & Hnone)|[? [=]]]]]].
    destruct (consistent_lookup lw b Hc Hin) as [v Hv]. congruence.
Qed.

(** *** The state machine *)

Lemma os_RemoveAll_ok (p : string) (o o' : OS) :
  os_RemoveAll p o = (None, o') →
  files o' = filter (λ kv, under p kv.1 = false) (files o)
  ∧ dirs o' = filter (λ d, under p d = false) (dirs o).
Proof.
  unfold os_RemoveAll, next_fault.
  destruct (faults o) as [|[e|] rest]; by intros [= <-].
Qed.

(** A successful [Open] was made on an unopened writer and leaves it open,
    on a workspace directory that exists. *)
Lemma Open_ok (lw lw' : AssetWriter) (o o' : OS) :
  AssetWriter_Open lw o = (None, lw', o') →
  tmpDir lw = "" ∧ tmpDir lw' ≠ "" ∧ tmpDir lw' ∈ dirs o'.
Proof.
  unfold AssetWriter_Open.
  destruct (String.eqb_spec (tmpDir lw) "") as [Hclosed|]; [|done]. cbn [negb].
  unfold ioutil_TempDir.
  destruct (next_fault o) as [[e|] o1]; [done|].
  destruct (next_rand o1) as [r o2].
  intros [= <- <-]. split; [done|]. cbn [tmpDir set_tmpDir dirs with_fs]. split.
  - apply (Join_nonempty (TMPDIR o2) ("writer-workspace" +:+ r)).
    cbv [append]. discriminate.
  - apply elem_of_union_l, elem_of_singleton. reflexivity.
Qed.

(** C9. The writer's state machine: [Open] on an open writer returns the
    state error and changes neither the writer nor the file system;
    [Close] on a writer that is not open returns the state error; a
    successful [Close] was made on an open writer, leaves no file and no
    directory at or below the workspace, touches nothing else, and leaves
    the writer unopened with its blobs and metadata; [Write] on a writer
    that is not open returns an error and leaves the target as it was. *)
Theorem writer_state_machine (lw : AssetWriter) (w : Writable) (o : OS) :
  (tmpDir lw ≠ "" →
   AssetWriter_Open lw o
   = (Some (errors_New "unable to open writer: writer already open"), lw, o))
  ∧ (tmpDir lw = "" →
     AssetWriter_Close lw o
     = (Some (errors_New "unable to close writer: writer is not open"), lw, o))
  ∧ (∀ lw' o',
       AssetWriter_Close lw o = (None, lw', o') →
       tmpDir lw ≠ "" ∧ tmpDir lw' = ""
       ∧ blobs lw' = blobs lw ∧ metadata lw' = metadata lw
       ∧ ∀ p, if under (tmpDir lw) p
              then files o' !! p = None ∧ p ∉ dirs o'
              else files o' !! p = files o !! p ∧ (p ∈ dirs o' ↔ p ∈ dirs o))
  ∧ (tmpDir lw = "" →
     AssetWriter_Write lw w o
     = (Some (errors_New "AssetWriter must be opened before writing"), lw, w, o)).
Proof.
  split; [|split; [|split]].
  - intros Hopen. unfold AssetWriter_Open.
    by destruct (String.eqb_spec (tmpDir lw) "").
  - intros Hclosed. unfold AssetWriter_Close. by rewrite Hclosed.
  - intros lw' o'. unfold AssetWriter_Close.
    destruct (String.eqb_spec (tmpDir lw) "") as [|Hopen]; [done|].
    destruct (os_RemoveAll _ o) as [[e|] o1] eqn:Hrm; [done|].
    intros [= <- <-]. apply os_RemoveAll_ok in Hrm as [-> ->].
    do 4 (split; [done|]). intros p.
    destruct (under (tmpDir lw) p) eqn:Hunder.
    + split.
      * apply map_lookup_filter_None. right. intros v _. cbn. congruence.
      * rewrite elem_of_filter. intros [? _]. congruence.
    + split.
      * destruct (files o !! p) as [v|] eqn:Hp.
        -- by apply map_lookup_filter_Some.
        -- apply map_lookup_filter_None. by left.
      * rewrite elem_of_filter. split; [by intros [_ ?] | done].
  - intros Hclosed. unfold AssetWriter_Write. by rewrite Hclosed.
Qed.

(** *** Writers without blobs *)

Lemma step_without_blobs (s : AssetWriter * OS) (op : Op) :
  is_OpAddAssetBlobs op = false →
  blobs s.1 = [] ∧ metadata s.1 = ∅ →
  blobs (step s op).1 = [] ∧ metadata (step s op).1 = ∅.
Proof.
  destruct s as [lw o]. intros Hop [Hb Hm]. destruct op as [| |w|aBlobs]; cbn.
  - destruct (AssetWriter_Open lw o) as [[err lw'] o'] eqn:Heq.
    apply Open_shape in Heq as [Hb' Hm']. cbn in *. by rewrite Hb', Hm'.
  - destruct (AssetWriter_Close lw o) as [[err lw'] o'] eqn:Heq.
    apply Close_shape in Heq as [Hb' Hm']. cbn in *. by rewrite Hb', Hm'.
  - unfold AssetWriter_Write. cbn in Hb. rewrite Hb.
    destruct (String.eqb _ _); [done|]. cbn.
    by destruct (dist_SetLabel w LayersLabel (metadata lw)).
  - done.
Qed.

Lemma run_without_blobs (ops : list Op) (s : AssetWriter * OS) :
  forallb (λ op, negb (is_OpAddAssetBlobs op)) ops = true →
  blobs s.1 = [] ∧ metadata s.1 = ∅ →
  blobs (fold_left step ops s).1 = [] ∧ metadata (fold_left step ops s).1 = ∅.
Proof.
  revert s. induction ops as [|op ops IH]; intros s Hops Hs; cbn; [done|].
  cbn in Hops. apply andb_prop in Hops as [Hop Hops].
  apply IH; [done|]. apply step_without_blobs; [|done].
  by apply negb_true_iff.
Qed.

(** C10. On an open writer on which [AddAssetBlobs] was never called,
    [Write] succeeds when the target's [SetLabel] does; the target
    receives no layer and exactly one call, [SetLabel] of
    [io.buildpacks.asset.layers] to the JSON serialization of the empty
    asset map; the writer and the file system are left as they were. *)
Theorem Write_without_blobs (writerFactory : archive_TarWriterFactory)
  (ops : list Op) (o0 o : OS) (w : Writable) :
  forallb (λ op, negb (is_OpAddAssetBlobs op)) ops = true →
  tmpDir (run writerFactory ops o0).1 ≠ "" →
  answer w (calls w) (CallSetLabel "io.buildpacks.asset.layers" (json_Marshal ∅)) = None →
  AssetWriter_Write (run writerFactory ops o0).1 w o
  = (None, (run writerFactory ops o0).1,
     {| calls := calls w ++ [CallSetLabel "io.buildpacks.asset.layers" (json_Marshal ∅)];
        answer := answer w |}, o).
Proof.
  intros Hops Hopen Hlabel.
  destruct (run_without_blobs ops (NewLayerWriter writerFactory, o0) Hops)
    as [Hb Hm]; [done|].
  fold (run writerFactory ops o0) in Hb, Hm.
  unfold AssetWriter_Write.
  destruct (String.eqb_spec (tmpDir (run writerFactory ops o0).1) ""); [done|].
  rewrite Hb. cbn. unfold dist_SetLabel, SetLabel, invoke.
  rewrite Hm. unfold LayersLabel. by rewrite Hlabel.
Qed.

(** *** The layer of a blob *)



End WriterProofs.

(** ** The fetchers *)

Section FetcherProofs.

Context `{External} `{URIEnv}.

Lemma FetchAssets_loop_app (cfg : FetcherConfig) (pre rest : list string)
  (result result1 : list Readable) (a a1 : Fetcher) :
  FetchAssets_loop cfg pre result a = (result1, None, a1) →
  FetchAssets_loop cfg (pre ++ rest) result a = FetchAssets_loop cfg rest result1 a1.
Proof.
  revert result a. induction pre as [|n pre IH]; intros result a; cbn.
  - by intros [= <- <-].
  - destruct (dispatch cfg _ n a) as [[[assets [err|]] a']|]; [done | | done].
    apply IH.
Qed.

Lemma dispatch_one_call (cfg : FetcherConfig) (locator : LocatorType)
  (assetName : string) (a a' : Fetcher) (assets : list Readable)
  (err : option error) :
  dispatch cfg locator assetName a = Some (assets, err, a') →
  ∃ c, fetched a' = fetched a ++ [c] ∧ call_names c = [assetName].
Proof.
  unfold dispatch. destruct locator; [done | | |].
  - destruct (assetURIFetcher a _ _ _) as [? ?]. intros [= <- <- <-]. by eexists.
  - destruct (assetFileFetcher a _ _ _ _) as [? ?]. intros [= <- <- <-]. by eexists.
  - destruct (assetImageFetcher a _ _ _ _) as [? ?]. intros [= <- <- <-]. by eexists.
Qed.

(** C3 (as amended). When the references before [assetName] were all
    fetched and the strategy chosen for [assetName] fails, [FetchAssets]
    fails at once: the failing strategy received exactly one more call,
    for [assetName], and none for the later references; the error names
    the locator type of the failing reference; and the sequence returned
    beside the error is the one accumulated from the earlier references
    (it is not emptied; what the failing call itself delivered is left
    out). *)
Theorem FetchAssets_first_failure (a a1 a2 : Fetcher) (options : list FetcherOptions)
  (cfg0 : FetcherConfig) (pre post : list string) (assetName : string)
  (result1 assets : list Readable) (err : error) :
  DefaultFetcherConfig = inr cfg0 →
  FetchAssets_loop (fold_left (λ cfg option, option cfg) options cfg0) pre [] a
  = (result1, None, a1) →
  dispatch (fold_left (λ cfg option, option cfg) options cfg0)
           (GetLocatorType assetName
              (workingDir (fold_left (λ cfg option, option cfg) options cfg0)))
           assetName a1
  = Some (assets, Some err, a2) →
  FetchAssets a (pre ++ assetName :: post) options
  = (result1,
     Some (fmt_Errorf
             ("unable to fetch asset of type "
              +:+ strconv_Quote
                    (LocatorType_String
                       (GetLocatorType assetName
                          (workingDir (fold_left (λ cfg option, option cfg)
                                                 options cfg0))))
              +:+ ": " +:+ Error err)),
     a2)
  ∧ ∃ c, fetched a2 = fetched a1 ++ [c] ∧ call_names c = [assetName].
Proof.
  intros Hcfg Hpre Hfail. split.
  - unfold FetchAssets. rewrite Hcfg.
    rewrite (FetchAssets_loop_app _ pre (assetName :: post) [] result1 a a1 Hpre).
    cbn. by rewrite Hfail.
  - by apply dispatch_one_call in Hfail.
Qed.

(** The later revision of the URI fetcher returns a wrapped error when a
    downloaded blob is not an OCI-layout package. *)
Lemma PackageURLFetcher_wraps (c : Ctx) (assetFile : string) (rest : list string)
  (result : list OciLayoutPackage) (uri : URL) (assetBlob : DownloadedBlob)
  (err : error) :
  url_Parse assetFile = inr uri →
  is_http (Scheme uri) = true →
  Download c (URL_String uri) = inr assetBlob →
  NewOCILayoutPackage assetBlob = inl err →
  PackageURLFetcher_loop c (assetFile :: rest) result
  = (result, Some (errors_Wrap err "error opening asset package in OCI format")).
Proof. intros Hparse Hhttp Hdl Hoci. cbn. by rewrite Hparse, Hhttp, Hdl, Hoci. Qed.

(** The earlier revision panics there. *)
Lemma AssetURIFetcher_panics (c : Ctx) (assetFile : string) (rest : list string)
  (result : list OciLayoutPackage) (uri : URL) (assetBlob : DownloadedBlob)
  (err : error) :
  url_Parse assetFile = inr uri →
  is_http (Scheme uri) = true →
  Download c (URL_String uri) = inr assetBlob →
  NewOCILayoutPackage assetBlob = inl err →
  AssetURIFetcher_loop c (assetFile :: rest) result = Panics err.
Proof. intros Hparse Hhttp Hdl Hoci. cbn. by rewrite Hparse, Hhttp, Hdl, Hoci. Qed.

(** The strategies themselves hand back what they accumulated when a
    reference fails: the image fetcher, for one. *)
Lemma AssetImageFetcher_loop_app
  (ImgFetcher_Fetch : Ctx → string → bool → PullPolicy → error + Image)
  (c : Ctx) (pullPolicy : PullPolicy) (pre rest : list string)
  (result result1 : list Image) :
  AssetImageFetcher_loop ImgFetcher_Fetch c pullPolicy pre result = (result1, None) →
  AssetImageFetcher_loop ImgFetcher_Fetch c pullPolicy (pre ++ rest) result
  = AssetImageFetcher_loop ImgFetcher_Fetch c pullPolicy rest result1.
Proof.
  revert result. induction pre as [|n pre IH]; intros result; cbn.
  - by intros [= <-].
  - destruct (ImgFetcher_Fetch c n true pullPolicy) as [err|img]; [done|]. apply IH.
Qed.

Lemma AssetImageFetcher_first_failure
  (ImgFetcher_Fetch : Ctx → string → bool → PullPolicy → error + Image)
  (c : Ctx) (pullPolicy : PullPolicy) (pre post : list string) (imageName : string)
  (result1 : list Image) (err : error) :
  AssetImageFetcher_FetchImageAssets ImgFetcher_Fetch c pullPolicy pre
  = (result1, None) →
  ImgFetcher_Fetch c imageName true pullPolicy = inl err →
  AssetImageFetcher_FetchImageAssets ImgFetcher_Fetch c pullPolicy
    (pre ++ imageName :: post)
  = (result1, Some (fmt_Errorf ("unable to fetch asset image: "
                                +:+ strconv_Quote (Error err)))).
Proof.
  unfold AssetImageFetcher_FetchImageAssets. intros Hpre Hfail.
  rewrite (AssetImageFetcher_loop_app _ _ _ pre (imageName :: post) [] result1 Hpre).
  cbn. by rewrite Hfail.
Qed.

(** [PackageURLFetcher.FetchURIAssets] never panics: it is a total function
    into results. *)
Lemma PackageURLFetcher_returns (c : Ctx) (uriAssets : list string) :
  ∃ result err, PackageURLFetcher_FetchURIAssets c uriAssets = (result, err).
Proof. destruct (PackageURLFetcher_FetchURIAssets c uriAssets); by eexists _, _. Qed.

End FetcherProofs.

(** * The scenarios of the tests, run on the doubles *)

Section Scenarios.

#[local] Existing Instance toy_External.
#[local] Existing Instance recorder.
#[local] Existing Instance toy_FetchEnv.
#[local] Existing Instance toy_URIEnv.

Example two_assets_open : tmpDir two_assets.1 = "/tmp/writer-workspace042".
Proof. reflexivity. Qed.

Example two_assets_calls :
  calls (toy_Write two_assets fresh_target).1.2
  = [ CallAddLayerWithDiffID "/tmp/writer-workspace042/first-sha256"
        (diffID_of (assetLayerReader recorderFactory firstAssetBlob).1);
      CallAddLayerWithDiffID "/tmp/writer-workspace042/second-sha256"
        (diffID_of (assetLayerReader recorderFactory secondAssetBlob).1);
      CallSetLabel "io.buildpacks.asset.layers"
        (json_Marshal (metadata (toy_Write two_assets fresh_target).1.1.2)) ].
Proof. vm_compute. reflexivity. Qed.

Example first_asset_layer_calls :
  (toAssetTar "first-sha256" firstAssetBlob []).1.1
  = asset_layer_entries 315532801 "/cnb/assets/first-sha256"
      (list_byte_of_string "first asset contents").
Proof. vm_compute. reflexivity. Qed.

(** The test [last asset wins]: the target is handed a layer for each of
    the two blobs, at the same path; the file there holds the stream of the
    second. *)
Example same_hash_calls :
  calls (toy_Write same_hash fresh_target).1.2
  = [ CallAddLayerWithDiffID "/tmp/writer-workspace042/first-sha256"
        (diffID_of (assetLayerReader recorderFactory firstAssetBlob).1);
      CallAddLayerWithDiffID "/tmp/writer-workspace042/first-sha256"
        (diffID_of (assetLayerReader recorderFactory firstAssetReplaceBlob).1);
      CallSetLabel "io.buildpacks.asset.layers"
        (json_Marshal (metadata (toy_Write same_hash fresh_target).1.1.2)) ].
Proof. vm_compute. reflexivity. Qed.

Example same_hash_layer_file :
  files (toy_Write same_hash fresh_target).2
    !! "/tmp/writer-workspace042/first-sha256"
  = Some (assetLayerReader recorderFactory firstAssetReplaceBlob).1.
Proof. vm_compute. reflexivity. Qed.

(** Outside the reachable states the defensive branch of [Write] can be
    taken: a blob without an entry. *)
Example unknown_sha_branch :
  (toy_Write ({| tmpDir := "/tmp/w"; blobs := [firstAssetBlob]; metadata := ∅;
                 writerFactory := recorderFactory |},
              quiet_OS) fresh_target).1.1.1
  = Some (fmt_Errorf "unknown sha256 asset value first-sha256").
Proof. vm_compute. reflexivity. Qed.

(** With a declared hash that is not a clean element the file entry is
    not below [/cnb/assets]. *)
Example unclean_declared_hash :
  (toAssetTar "../x" firstAssetBlob []).1.1
  = [ CallWriteHeader {| hdr_Typeflag := TypeDir; hdr_Name := "/cnb";
                         hdr_Mode := 493; hdr_Size := 0;
                         hdr_ModTime := 315532801 |};
      CallWriteHeader {| hdr_Typeflag := TypeDir; hdr_Name := "/cnb/assets";
                         hdr_Mode := 493; hdr_Size := 0;
                         hdr_ModTime := 315532801 |};
      CallWriteHeader {| hdr_Typeflag := TypeReg; hdr_Name := "/cnb/x";
                         hdr_Mode := 493; hdr_Size := 20;
                         hdr_ModTime := 315532801 |};
      CallWrite (list_byte_of_string "first asset contents") ].
Proof. vm_compute. reflexivity. Qed.

Lemma Write_one_layer_per_blob_witness :
  (reachable two_assets.1
   ∧ NoDup (declared <$> blobs two_assets.1))
  ∧ calls (toy_Write two_assets fresh_target).1.2
    = calls fresh_target
      ++ map (layer_call (writerFactory two_assets.1) (tmpDir two_assets.1)) (blobs two_assets.1)
      ++ [CallSetLabel LayersLabel
            (json_Marshal (metadata (toy_Write two_assets fresh_target).1.1.2))]
  ∧ size (metadata (toy_Write two_assets fresh_target).1.1.2)
    = length (blobs two_assets.1)
  ∧ ∀ b, b ∈ blobs two_assets.1 →
      (assetLayerReader recorderFactory b).2 = None
      ∧ (∃ v, metadata (toy_Write two_assets fresh_target).1.1.2 !! declared b = Some v
              ∧ AssetValue.LayerDiffID v
                = "sha256:" +:+ hex_EncodeToString
                                  (sha256_Sum (assetLayerReader recorderFactory b).1))
      ∧ ((∀ b', b' ∈ blobs two_assets.1 →
                layer_file (tmpDir two_assets.1) b'
                = layer_file (tmpDir two_assets.1) b → b' = b) →
         files (toy_Write two_assets fresh_target).2
           !! layer_file (tmpDir two_assets.1) b
         = Some (assetLayerReader recorderFactory b).1).
Proof.
  assert (reachable two_assets.1) as Hreach.
  { exists recorderFactory,
      [OpAddAssetBlobs [firstAssetBlob; secondAssetBlob]; OpOpen], quiet_OS.
    reflexivity. }
  assert (NoDup (declared <$> blobs two_assets.1)) as Hnodup.
  { change (declared <$> blobs two_assets.1) with ["first-sha256"; "second-sha256"].
    apply NoDup_cons. split; [|apply NoDup_singleton].
    intros Hin%list_elem_of_singleton. discriminate Hin. }
  split; [done|].
  apply (Write_one_layer_per_blob two_assets.1 _ fresh_target _ two_assets.2
           (toy_Write two_assets fresh_target).2 Hreach Hnodup).
  vm_compute. reflexivity.
Defined.

Lemma Write_last_blob_wins_witness :
  (reachable same_hash.1
   ∧ blobs same_hash.1 = [] ++ firstAssetBlob :: [] ++ firstAssetReplaceBlob :: []
   ∧ Forall (λ b, declared b ≠ "first-sha256") [])
  ∧ ∃ v, metadata (toy_Write same_hash fresh_target).1.1.2 !! "first-sha256" = Some v
         ∧ AssetValue.ID v = "first-asset-replace"
         ∧ AssetValue.Name v = "First AssetInfo Replace"
         ∧ AssetValue.Version v = "1.2.3"
         ∧ AssetValue.URI v = "https://first-asset-replace-uri"
         ∧ AssetValue.Stacks v = ["io.buildpacks.stacks.bionic"]
         ∧ AssetValue.LayerDiffID v
           = "sha256:" +:+ hex_EncodeToString
                             (sha256_Sum (assetLayerReader recorderFactory firstAssetReplaceBlob).1).
Proof.
  assert (reachable same_hash.1) as Hreach.
  { exists recorderFactory,
      [OpOpen; OpAddAssetBlobs [firstAssetBlob];
       OpAddAssetBlobs [firstAssetReplaceBlob]], quiet_OS.
    reflexivity. }
  split; [by repeat split|].
  apply (Write_last_blob_wins same_hash.1
           (toy_Write same_hash fresh_target).1.1.2 fresh_target
           (toy_Write same_hash fresh_target).1.2 same_hash.2
           (toy_Write same_hash fresh_target).2
           [] [] [] firstAssetBlob firstAssetReplaceBlob "first-sha256" Hreach);
    [reflexivity | reflexivity | reflexivity | constructor |].
  vm_compute. reflexivity.
Defined.







Lemma Write_lookup_always_succeeds_witness :
  reachable two_assets.1
  ∧ (∀ b, b ∈ blobs two_assets.1 → is_Some (metadata two_assets.1 !! declared b))
  ∧ (∀ msg, (Write_loop (blobs two_assets.1) two_assets.1 fresh_target
               two_assets.2).1.1.1 ≠ Some (fmt_Errorf msg))
  ∧ ∀ msg, (AssetWriter_Write two_assets.1 fresh_target two_assets.2).1.1.1
           ≠ Some (fmt_Errorf msg).
Proof.
  assert (reachable two_assets.1) as Hreach.
  { exists recorderFactory,
      [OpAddAssetBlobs [firstAssetBlob; secondAssetBlob]; OpOpen], quiet_OS.
    reflexivity. }
  split; [done|].
  apply (Write_lookup_always_succeeds two_assets.1 fresh_target two_assets.2 Hreach).
Defined.

Lemma writer_state_machine_witness :
  AssetWriter_Open two_assets.1 two_assets.2
  = (Some (errors_New "unable to open writer: writer already open"),
     two_assets.1, two_assets.2)
  ∧ AssetWriter_Close (NewLayerWriter recorderFactory) quiet_OS
    = (Some (errors_New "unable to close writer: writer is not open"),
       (NewLayerWriter recorderFactory), quiet_OS)
  ∧ (tmpDir (AssetWriter_Close two_assets.1 (toy_Write two_assets fresh_target).2).1.2 = ""
     ∧ files (AssetWriter_Close two_assets.1 (toy_Write two_assets fresh_target).2).2
         !! "/tmp/writer-workspace042/first-sha256" = None)
  ∧ AssetWriter_Write (NewLayerWriter recorderFactory) fresh_target quiet_OS
    = (Some (errors_New "AssetWriter must be opened before writing"),
       (NewLayerWriter recorderFactory), fresh_target, quiet_OS).
Proof.
  destruct (writer_state_machine two_assets.1 fresh_target two_assets.2)
    as (Hopen & _ & _ & _).
  destruct (writer_state_machine (NewLayerWriter recorderFactory) fresh_target quiet_OS)
    as (_ & Hclose & _ & Hwrite).
  destruct (writer_state_machine two_assets.1 fresh_target
              (toy_Write two_assets fresh_target).2)
    as (_ & _ & Hclosed & _).
  split; [by apply Hopen|]. split; [by apply Hclose|]. split; [|by apply Hwrite].
  destruct (Hclosed
              (AssetWriter_Close two_assets.1 (toy_Write two_assets fresh_target).2).1.2
              (AssetWriter_Close two_assets.1 (toy_Write two_assets fresh_target).2).2)
    as (_ & Hunopened & _ & _ & Hfs); [vm_compute; reflexivity|].
  split; [exact Hunopened|].
  exact (proj1 (Hfs "/tmp/writer-workspace042/first-sha256")).
Defined.

Lemma Write_without_blobs_witness :
  (forallb (λ op, negb (is_OpAddAssetBlobs op)) [OpOpen] = true
   ∧ tmpDir (run recorderFactory [OpOpen] quiet_OS).1 ≠ "")
  ∧ AssetWriter_Write (run recorderFactory [OpOpen] quiet_OS).1 fresh_target quiet_OS
    = (None, (run recorderFactory [OpOpen] quiet_OS).1,
       {| calls := calls fresh_target
                   ++ [CallSetLabel "io.buildpacks.asset.layers" (json_Marshal ∅)];
          answer := answer fresh_target |}, quiet_OS).
Proof.
  assert (tmpDir (run recorderFactory [OpOpen] quiet_OS).1 ≠ "") as Hopen by done.
  split; [done|].
  apply (Write_without_blobs recorderFactory [OpOpen] quiet_OS quiet_OS
           fresh_target);
    [reflexivity | exact Hopen | reflexivity].
Defined.

(** The second of three references cannot be pulled: the first one's
    result is still in the returned sequence, and the third is never
    asked for. *)
Lemma FetchAssets_returns_partial_results :
  (FetchAssets toy_Fetcher ["good-image"; "bad-image"; "never-fetched"] []).1.1
  = [ReadableImage "good-image"]
  ∧ (FetchAssets toy_Fetcher ["good-image"; "bad-image"; "never-fetched"] []).1.2
    = Some (fmt_Errorf ("unable to fetch asset of type "
                        +:+ dquote +:+ "ImageLocator" +:+ dquote
                        +:+ ": pull failed"))
  ∧ map call_names
        (fetched (FetchAssets toy_Fetcher
                    ["good-image"; "bad-image"; "never-fetched"] []).2)
    = [["good-image"]; ["bad-image"]].
Proof. repeat split; vm_compute; reflexivity. Qed.

Lemma FetchAssets_first_failure_witness :
  FetchAssets toy_Fetcher (["good-image"] ++ "bad-image" :: ["never-fetched"]) []
  = ([ReadableImage "good-image"],
     Some (fmt_Errorf
             ("unable to fetch asset of type "
              +:+ strconv_Quote
                    (LocatorType_String
                       (GetLocatorType "bad-image"
                          (workingDir
                             (fold_left (λ cfg option, option cfg) []
                                {| ctx := context_Background;
                                   imagePullPolicy := PullIfNotPresent;
                                   workingDir := "/work" |}))))
              +:+ ": " +:+ Error (errors_New "pull failed"))),
     record_call (CallFetchImageAssets context_Background PullIfNotPresent ["bad-image"])
       (record_call (CallFetchImageAssets context_Background PullIfNotPresent ["good-image"])
          toy_Fetcher))
  ∧ ∃ c, fetched (record_call (CallFetchImageAssets context_Background PullIfNotPresent ["bad-image"])
                    (record_call (CallFetchImageAssets context_Background PullIfNotPresent ["good-image"])
                       toy_Fetcher))
         = fetched (record_call (CallFetchImageAssets context_Background PullIfNotPresent ["good-image"])
                      toy_Fetcher) ++ [c]
         ∧ call_names c = ["bad-image"].
Proof.
  apply (FetchAssets_first_failure toy_Fetcher
           (record_call (CallFetchImageAssets context_Background PullIfNotPresent ["good-image"])
              toy_Fetcher)
           (record_call (CallFetchImageAssets context_Background PullIfNotPresent ["bad-image"])
              (record_call (CallFetchImageAssets context_Background PullIfNotPresent ["good-image"])
                 toy_Fetcher))
           [] {| ctx := context_Background; imagePullPolicy := PullIfNotPresent;
                 workingDir := "/work" |}
           ["good-image"] ["never-fetched"] "bad-image"
           [@ReadableImage toy_FetchEnv "good-image"] []
           (errors_New "pull failed"));
    reflexivity.
Defined.

(** C4 (the code at the failing input). An https reference whose
    download is not an OCI-layout package: the earlier revision of the URI
    fetcher, [AssetURIFetcher.FetchURIAssets], panics with the opener's
    error instead of returning it; the later revision,
    [PackageURLFetcher.FetchURIAssets], returns it wrapped. *)
Theorem AssetURIFetcher_panics_on_bad_package :
  AssetURIFetcher_FetchURIAssets context_Background ["https://example.com/not-oci.tar"]
  = Panics (errors_New "not an OCI layout")
  ∧ PackageURLFetcher_FetchURIAssets context_Background ["https://example.com/not-oci.tar"]
    = ([], Some (errors_Wrap (errors_New "not an OCI layout")
                             "error opening asset package in OCI format")).
Proof. split; reflexivity. Qed.

End Scenarios.

(** * Further properties of the writer *)

Section WriterMore.

Context `{External} {TW : Type} `{!TarWriterFactory TW}.

(** X1. Blobs may be handed over in one call or in several: adding
    [xs ++ ys] at once leaves the writer as adding [xs] and then [ys] does,
    and a call without blobs changes nothing. *)
Theorem AddAssetBlobs_batches (xs ys : list Blob) (lw : AssetWriter) :
  AssetWriter_AddAssetBlobs (xs ++ ys) lw
  = AssetWriter_AddAssetBlobs ys (AssetWriter_AddAssetBlobs xs lw)
  ∧ AssetWriter_AddAssetBlobs [] lw = lw.
Proof.
  split.
  - unfold AssetWriter_AddAssetBlobs. cbn [tmpDir blobs metadata].
    by rewrite fold_left_app, app_assoc.
  - destruct lw as [d bs md f]. unfold AssetWriter_AddAssetBlobs. cbn.
    by rewrite app_nil_r.
Qed.

(** X2. After [AddAssetBlobs], the metadata maps every hash declared in
    the batch to the provisional value of the last blob of the batch that
    declares it: its identity, and an empty diff-id, whatever entry (and
    diff-id) was there before.  The other entries are as they were. *)
Theorem AddAssetBlobs_entries (aBlobs : list Blob) (lw : AssetWriter) :
  (∀ k, AssetWriter_AssetMetadata (AssetWriter_AddAssetBlobs aBlobs lw) !! k
        = match last_declared k aBlobs with
          | Some b => Some (ToAssetValue (AssetDescriptor b) "")
          | None => AssetWriter_AssetMetadata lw !! k
          end)
  ∧ ∀ b, b ∈ aBlobs →
      ∃ v, AssetWriter_AssetMetadata (AssetWriter_AddAssetBlobs aBlobs lw)
             !! declared b = Some v
           ∧ AssetValue.LayerDiffID v = "".
Proof.
  assert (∀ k, AssetWriter_AssetMetadata (AssetWriter_AddAssetBlobs aBlobs lw) !! k
               = match last_declared k aBlobs with
                 | Some b => Some (ToAssetValue (AssetDescriptor b) "")
                 | None => AssetWriter_AssetMetadata lw !! k
                 end) as Hlookup.
  { intros k. unfold AssetWriter_AssetMetadata, AssetWriter_AddAssetBlobs.
    cbn [metadata]. apply AddAssetBlobs_lookup. }
  split; [done|].
  intros b Hin. rewrite Hlookup.
  destruct (last_declared (declared b) aBlobs) as [b'|] eqn:Hlast.
  - by eexists.
  - apply last_declared_None in Hlast. destruct Hlast.
    apply list_elem_of_fmap. by exists b.
Qed.

(** X3. [Open] followed by [Close], both successful, gives the writer
    back as it was; of the workspace nothing is left, and every other
    file and directory is as before [Open]. *)
Theorem Open_Close_round_trip (lw lw1 lw2 : AssetWriter) (o o1 o2 : OS) :
  AssetWriter_Open lw o = (None, lw1, o1) →
  AssetWriter_Close lw1 o1 = (None, lw2, o2) →
  lw2 = lw
  ∧ ∀ p, if under (tmpDir lw1) p
         then files o2 !! p = None ∧ p ∉ dirs o2
         else files o2 !! p = files o !! p ∧ (p ∈ dirs o2 ↔ p ∈ dirs o).
Proof.
  intros Hopen Hclose.
  assert (tmpDir lw = "" ∧ lw1 = set_tmpDir (tmpDir lw1) lw
          ∧ files o1 = files o ∧ dirs o1 = {[ tmpDir lw1 ]} ∪ dirs o)
    as (Hclosed & Hlw1 & Hfiles & Hdirs).
  { revert Hopen. unfold AssetWriter_Open.
    destruct (String.eqb_spec (tmpDir lw) "") as [Hc|]; [|done]. cbn [negb].
    unfold ioutil_TempDir, next_fault, next_rand.
    destruct (faults o) as [|[e|] fs]; [|done|];
      destruct (rand o) as [|r rs]; by intros [= <- <-]. }
  revert Hclose. unfold AssetWriter_Close.
  destruct (String.eqb_spec (tmpDir lw1) "") as [|Hopened]; [done|].
  destruct (os_RemoveAll (tmpDir lw1) o1) as [[e|] o1'] eqn:Hrm; [done|].
  intros [= <- <-]. apply os_RemoveAll_ok in Hrm as [Hf Hd].
  split.
  - rewrite Hlw1. destruct lw as [d bs md f]. cbn in *. by subst d.
  - intros p. rewrite Hf, Hd, Hfiles, Hdirs.
    destruct (under (tmpDir lw1) p) eqn:Hunder.
    + split.
      * apply map_lookup_filter_None. right. intros v _. cbn. congruence.
      * rewrite elem_of_filter. intros [? _]. congruence.
    + split.
      * destruct (files o !! p) as [v|] eqn:Hp.
        -- by apply map_lookup_filter_Some.
        -- apply map_lookup_filter_None. by left.
      * rewrite elem_of_filter, elem_of_union, elem_of_singleton. split.
        -- intros [_ [->|Hin]]; [|done].
           unfold under in Hunder. rewrite String.eqb_refl in Hunder. done.
        -- intros Hin. split; [done | by right].
Qed.

(** X4. A writer that was opened cannot be opened again: after a
    successful [Open], every further [Open] returns the state error and
    changes neither the writer nor the file system. *)
Theorem Open_twice_fails (lw lw1 : AssetWriter) (o o1 o' : OS) :
  AssetWriter_Open lw o = (None, lw1, o1) →
  AssetWriter_Open lw1 o'
  = (Some (errors_New "unable to open writer: writer already open"), lw1, o').
Proof.
  intros (_ & Hopened & _)%Open_ok. unfold AssetWriter_Open.
  by destruct (String.eqb_spec (tmpDir lw1) "").
Qed.

(** X5. Whatever its outcome, [Write] keeps the writer's workspace and
    blobs, adds no entry to the metadata and removes none, and changes
    nothing of an entry but its diff-id. *)
Theorem Write_keeps_identity (lw : AssetWriter) (w : Writable) (o : OS) :
  tmpDir (AssetWriter_Write lw w o).1.1.2 = tmpDir lw
  ∧ blobs (AssetWriter_Write lw w o).1.1.2 = blobs lw
  ∧ dom (metadata (AssetWriter_Write lw w o).1.1.2) = dom (metadata lw)
  ∧ ∀ k v v', metadata lw !! k = Some v →
              metadata (AssetWriter_Write lw w o).1.1.2 !! k = Some v' →
              v' = set_LayerDiffID v (AssetValue.LayerDiffID v').
Proof.
  destruct (AssetWriter_Write lw w o) as [[[err lw'] w'] o'] eqn:Hwrite.
  apply Write_any in Hwrite as [(Htmp & Hblobs & Hmd & _) _]. cbn [fst snd].
  split; [done|]. split; [done|]. split.
  - apply set_eq. intros k. rewrite !elem_of_dom. specialize (Hmd k).
    destruct (metadata lw' !! k), (metadata lw !! k); cbn in Hmd;
      try done; split; intros [? ?]; done.
  - intros k v v' Hv Hv'. specialize (Hmd k). rewrite Hv, Hv' in Hmd.
    destruct v, v'. cbn in Hmd. unfold set_LayerDiffID in *. cbn in *.
    by simplify_eq.
Qed.

Lemma Write_blob_fail (b : Blob) (lw lw' : AssetWriter) (w w' : Writable)
  (o o' : OS) (e : error) :
  Write_blob b lw w o = (Some e, lw', w', o') →
  lw' = lw
  ∧ (calls w' = calls w
     ∨ calls w' = calls w ++ [layer_call (writerFactory lw) (tmpDir lw) b]).
Proof.
  unfold Write_blob, layer_call, declared, diffID_of.
  destruct (createAssetLayerFile _ _ o) as [[e1|d] o1] eqn:Hfile.
  { intros [= <- <- <- <-]. split; [done | by left]. }
  apply createAssetLayerFile_ok in Hfile as (_ & -> & _).
  unfold AddLayerWithDiffID, invoke.
  destruct (answer w (calls w) _) as [e2|].
  { intros [= <- <- <- <-]. split; [done | by right]. }
  destruct (metadata lw !! AssetInfo.Sha256 (AssetDescriptor b)); [done|].
  intros [= <- <- <- <-]. split; [done | by right].
Qed.

(** A loop that fails went through some blobs successfully and failed on
    the next one. *)
Lemma Write_loop_fail_split (bs : list Blob) (lw lw' : AssetWriter)
  (w w' : Writable) (o o' : OS) (e : error) :
  Write_loop bs lw w o = (Some e, lw', w', o') →
  ∃ done b rest lw1 w1 o1,
    bs = done ++ b :: rest
    ∧ Write_loop done lw w o = (None, lw1, w1, o1)
    ∧ Write_blob b lw1 w1 o1 = (Some e, lw', w', o').
Proof.
  revert lw w o. induction bs as [|b bs IH]; intros lw w o; cbn; [done|].
  destruct (Write_blob b lw w o) as [[[err1 lw1] w1] o1] eqn:Hb.
  destruct err1 as [e1|].
  - intros [= <- <- <- <-]. by exists [], b, bs, lw, w, o.
  - intros (done & b' & rest & lw2 & w2 & o2 & -> & Hdone & Hfail)%IH.
    exists (b :: done), b', rest, lw2, w2, o2. cbn. by rewrite Hb.
Qed.

(** X6. A failed [Write] rolls nothing back.  When an open writer's
    [Write] fails, some number [n] of its blobs were processed in full:
    the metadata carries the diff-ids of exactly these (for each declared
    hash, that of the last of them declaring it), and the target has
    received their layers, in order.  Beyond that the target received
    either nothing (the layer file of the next blob could not be made),
    or the layer of the next blob (its registration or its metadata
    lookup failed), or, all blobs being processed, the label whose
    setting failed. *)
Theorem Write_failure_keeps_progress (lw lw' : AssetWriter) (w w' : Writable)
  (o o' : OS) (e : error) :
  tmpDir lw ≠ "" →
  AssetWriter_Write lw w o = (Some e, lw', w', o') →
  ∃ n, n ≤ length (blobs lw)
    ∧ (∀ k, metadata lw' !! k
            = match last_declared k (take n (blobs lw)) with
              | Some b =>
                  (λ m, set_LayerDiffID m
                          (diffID_of (assetLayerReader (writerFactory lw) b).1))
                    <$> metadata lw !! k
              | None => metadata lw !! k
              end)
    ∧ ((n < length (blobs lw)
        ∧ calls w' = calls w
                     ++ map (layer_call (writerFactory lw) (tmpDir lw))
                            (take n (blobs lw)))
       ∨ (n < length (blobs lw)
          ∧ calls w' = calls w
                       ++ map (layer_call (writerFactory lw) (tmpDir lw))
                              (take (S n) (blobs lw)))
       ∨ (n = length (blobs lw)
          ∧ calls w' = calls w
                       ++ map (layer_call (writerFactory lw) (tmpDir lw)) (blobs lw)
                       ++ [CallSetLabel LayersLabel (json_Marshal (metadata lw'))])).
Proof.
  intros Hopen. unfold AssetWriter_Write.
  destruct (String.eqb_spec (tmpDir lw) ""); [done|].
  destruct (Write_loop (blobs lw) lw w o) as [[[err1 lw1] w1] o1] eqn:Hloop.
  destruct err1 as [e1|].
  - intros [= <- <- <- <-].
    apply Write_loop_fail_split in Hloop
      as (done & b & rest & lw2 & w2 & o2 & Hbs & Hdone & Hfail).
    pose proof Hdone as [(Htmp & _ & _ & Hfac) _]%Write_loop_any.
    apply Write_loop_ok in Hdone as (Hcalls & _ & Hmd).
    apply Write_blob_fail in Hfail as [-> Hlast].
    exists (length done). rewrite Hbs, take_app_length, length_app. cbn [length].
    split; [lia|]. split; [done|].
    destruct Hlast as [Hlast|Hlast]; [left | right; left]; (split; [lia|]).
    + by rewrite Hlast, Hcalls.
    + rewrite Hlast, Hcalls, Htmp, Hfac, <- app_assoc. f_equal.
      change (done ++ b :: rest) with (done ++ [b] ++ rest).
      rewrite (app_assoc done [b] rest).
      rewrite (take_app_length' (done ++ [b]) rest); [by rewrite map_app|].
      rewrite length_app. cbn. lia.
  - pose proof Hloop as (Hcalls & _ & Hmd)%Write_loop_ok.
    unfold dist_SetLabel, SetLabel, invoke.
    destruct (answer w1 (calls w1) _) as [e2|]; [|done].
    intros [= <- <- <- <-]. exists (length (blobs lw)).
    rewrite take_ge by lia. split; [lia|]. split; [done|].
    right; right. split; [done|]. cbn. by rewrite Hcalls, <- app_assoc.
Qed.

(** X7. [Write] can be repeated.  A second successful [Write] of the same
    writer leaves the metadata as the first one left it and makes on its
    target the very calls the first one made on its own: the same layers
    under the same diff-ids, then the same label. *)
Theorem Write_twice (lw lw1 lw2 : AssetWriter) (w w1 v v2 : Writable)
  (o o1 o' o2 : OS) :
  AssetWriter_Write lw w o = (None, lw1, w1, o1) →
  AssetWriter_Write lw1 v o' = (None, lw2, v2, o2) →
  metadata lw2 = metadata lw1
  ∧ drop (length (calls v)) (calls v2) = drop (length (calls w)) (calls w1).
Proof.
  intros Hfirst Hsecond.
  pose proof Hfirst as [(Htmp & _ & _ & Hfac) _]%Write_any.
  apply Write_ok in Hfirst as (_ & Hblobs & Hcalls & _ & Hmd).
  apply Write_ok in Hsecond as (_ & _ & Hcalls' & _ & Hmd').
  rewrite Hfac in Hcalls', Hmd'.
  assert (metadata lw2 = metadata lw1) as Heq.
  { apply map_eq. intros k. rewrite Hmd', Hblobs, Hmd.
    destruct (last_declared k (blobs lw)); [|done].
    by destruct (metadata lw !! k). }
  split; [done|].
  by rewrite Hcalls', Hcalls, !drop_app_length, Hblobs, Htmp, Heq.
Qed.

(** X8. Nothing of a blob that cannot be read in full enters its layer.
    When [Open] fails, or the reader fails before its end, the tar writer
    is handed the two directory headers and nothing else, whatever the
    reader delivered, and [toAssetTar] fails; when the writer accepted
    both headers, the error is the cause wrapped as [unable to open blob
    for asset <quoted hash>], respectively [unable to copy blob contents
    to buffer]. *)
Theorem toAssetTar_unreadable (blobSha : string) (b : Blob) (tw : TW) :
  (∀ cause, Open b = inl cause →
     (toAssetTar blobSha b tw).1
     = (feed (asset_layer_dirs NormalizedDateTime) tw).1
     ∧ ∃ e, (toAssetTar blobSha b tw).2 = inl e
            ∧ ((feed (asset_layer_dirs NormalizedDateTime) tw).2
               = None →
               e = errors_Wrap cause
                     ("unable to open blob for asset " +:+ strconv_Quote blobSha)))
  ∧ (∀ p cause, Open b = inr (p, Some cause) →
       (toAssetTar blobSha b tw).1
       = (feed (asset_layer_dirs NormalizedDateTime) tw).1
       ∧ ∃ e, (toAssetTar blobSha b tw).2 = inl e
              ∧ ((feed (asset_layer_dirs NormalizedDateTime) tw).2
                 = None →
                 e = errors_Wrap cause "unable to copy blob contents to buffer")).
Proof.
  split.
  - intros cause Hopen.
    unfold toAssetTar, tar_bind, wrapping, tar_lift, TarWriter_WriteHeader, of_call.
    rewrite Hopen. cbn [asset_layer_dirs feed do_call].
    change (path.Join ["/cnb"]) with "/cnb".
    change (path.Join ["/cnb"; "assets"]) with "/cnb/assets".
    destruct (tw_WriteHeader _ tw) as [[tw1 out1] [e1|]];
      [split; [done | by eexists]|].
    destruct (tw_WriteHeader _ tw1) as [[tw2 out2] [e2|]]; cbn;
      (split; [by rewrite ?app_nil_r | by eexists]).
  - intros p cause Hopen.
    unfold toAssetTar, tar_bind, wrapping, tar_lift, TarWriter_WriteHeader, of_call.
    rewrite Hopen. cbn [asset_layer_dirs feed do_call io_Copy_buffer].
    change (path.Join ["/cnb"]) with "/cnb".
    change (path.Join ["/cnb"; "assets"]) with "/cnb/assets".
    destruct (tw_WriteHeader _ tw) as [[tw1 out1] [e1|]];
      [split; [done | by eexists]|].
    destruct (tw_WriteHeader _ tw1) as [[tw2 out2] [e2|]]; cbn;
      (split; [by rewrite ?app_nil_r | by eexists]).
Qed.

Lemma createAssetLayerFile_dirs (name : string) (rc : ReadCloser) (o o' : OS)
  (r : error + string) :
  createAssetLayerFile name rc o = (r, o') → dirs o' = dirs o.
Proof.
  unfold createAssetLayerFile.
  assert (∀ o1 o2 err, os_OpenFile name o1 = (err, o2) → dirs o2 = dirs o1)
    as Hopen.
  { intros o1 o2 err. unfold os_OpenFile, next_fault.
    destruct (faults o1) as [|[e|] rest]; by intros [= <- <-]. }
  assert (∀ q o1 o2 err, file_Write name q o1 = (err, o2) → dirs o2 = dirs o1)
    as Hwrite.
  { intros q o1 o2 err. unfold file_Write, next_fault.
    destruct (faults o1) as [|[e|] rest]; by intros [= <- <-]. }
  destruct (os_OpenFile name o) as [[e|] o1] eqn:Ho.
  { intros [= <- <-]. by apply (Hopen o o1 (Some e)). }
  apply Hopen in Ho. unfold io_Copy_tee. destruct rc as [q rerr].
  destruct (file_Write name q o1) as [werr o2] eqn:Hw. apply Hwrite in Hw.
  destruct werr as [e|], rerr as [e'|]; intros [= <- <-]; congruence.
Qed.

(** X9. The hash [createAssetLayerFile] returns is the hash of the file
    it leaves.  It returns one only for a stream that ended without error;
    the file then holds exactly the bytes of the stream (what the file
    held before is gone), the hash is the hex SHA-256 of these bytes, and
    no other file or directory was touched. *)
Theorem createAssetLayerFile_hash_of_file (layerFileName : string)
  (assetLayer : ReadCloser) (o o' : OS) (sha256Hash : string) :
  createAssetLayerFile layerFileName assetLayer o = (inr sha256Hash, o') →
  assetLayer.2 = None
  ∧ ∃ content, files o' !! layerFileName = Some content
               ∧ content = assetLayer.1
               ∧ sha256Hash = hex_EncodeToString (sha256_Sum content)
               ∧ (∀ p, p ≠ layerFileName → files o' !! p = files o !! p)
               ∧ dirs o' = dirs o.
Proof.
  intros Hrun.
  pose proof Hrun as (Hend & Hhash & Hfile)%createAssetLayerFile_ok.
  split; [done|]. exists assetLayer.1. do 3 (split; [done|]). split.
  - intros p Hne. by apply (createAssetLayerFile_other _ p) in Hrun.
  - by apply createAssetLayerFile_dirs in Hrun.
Qed.

(** *** What [Write] leaves on the file system *)

Lemma Write_blob_dirs (b : Blob) (lw lw' : AssetWriter) (w w' : Writable)
  (o o' : OS) (err : option error) :
  Write_blob b lw w o = (err, lw', w', o') → dirs o' = dirs o.
Proof.
  unfold Write_blob.
  destruct (createAssetLayerFile _ _ o) as [r o1] eqn:Hfile.
  apply createAssetLayerFile_dirs in Hfile.
  destruct r as [e|d]; [by intros [= <- <- <- <-]|].
  destruct (AddLayerWithDiffID _ _ w) as [[e|] w1]; [by intros [= <- <- <- <-]|].
  destruct (metadata lw !! AssetInfo.Sha256 (AssetDescriptor b));
    by intros [= <- <- <- <-].
Qed.

Lemma Write_loop_outside (bs : list Blob) (lw lw' : AssetWriter) (w w' : Writable)
  (o o' : OS) (err : option error) :
  Write_loop bs lw w o = (err, lw', w', o') →
  dirs o' = dirs o
  ∧ ∀ p, (∀ b, b ∈ bs → p ≠ layer_file (tmpDir lw) b) →
         files o' !! p = files o !! p.
Proof.
  revert lw w o. induction bs as [|b bs IH]; intros lw w o; cbn [Write_loop].
  - by intros [= <- <- <- <-].
  - destruct (Write_blob b lw w o) as [[[err1 lw1] w1] o1] eqn:Hb.
    pose proof (Write_blob_dirs _ _ _ _ _ _ _ _ Hb) as Hdirs.
    pose proof Hb as [(Htmp & _ & _) _]%Write_blob_any.
    assert (∀ p, (∀ b', b' ∈ b :: bs → p ≠ layer_file (tmpDir lw) b') →
                 files o1 !! p = files o !! p) as Hfiles.
    { intros p Hp. apply (Write_blob_other_files _ _ _ _ _ _ _ _ p Hb).
      apply Hp. by left. }
    destruct err1 as [e1|].
    + by intros [= <- <- <- <-].
    + intros [Hd Hf]%IH. split; [congruence|].
      intros p Hp. rewrite Hf, Hfiles; [done | done |].
      intros b' Hin. rewrite Htmp. apply Hp. by right.
Qed.

(** X24. [Close] after [Write] cleans up, whatever the outcome of [Write]
    was.  When the layer file of every blob lies in the workspace, a
    successful [Close] leaves nothing at or below the workspace, and every
    other file and directory as it was before [Write]. *)
Theorem Write_Close_cleans_up (lw lw1 lw2 : AssetWriter) (w w1 : Writable)
  (o o1 o2 : OS) (err : option error) :
  (∀ b, b ∈ blobs lw → under (tmpDir lw) (layer_file (tmpDir lw) b) = true) →
  AssetWriter_Write lw w o = (err, lw1, w1, o1) →
  AssetWriter_Close lw1 o1 = (None, lw2, o2) →
  tmpDir lw2 = ""
  ∧ ∀ p, if under (tmpDir lw) p
         then files o2 !! p = None ∧ p ∉ dirs o2
         else files o2 !! p = files o !! p ∧ (p ∈ dirs o2 ↔ p ∈ dirs o).
Proof.
  intros Hinside Hwrite Hclose.
  assert (tmpDir lw1 = tmpDir lw ∧ dirs o1 = dirs o
          ∧ ∀ p, (∀ b, b ∈ blobs lw → p ≠ layer_file (tmpDir lw) b) →
                 files o1 !! p = files o !! p) as (Htmp & Hdirs & Hfiles).
  { revert Hwrite. unfold AssetWriter_Write.
    destruct (String.eqb (tmpDir lw) ""); [by intros [= <- <- <- <-]|].
    destruct (Write_loop (blobs lw) lw w o) as [[[err1 lw'] w'] o'] eqn:Hloop.
    pose proof Hloop as [(Ht & _ & _) _]%Write_loop_any.
    apply Write_loop_outside in Hloop as [Hd Hf].
    destruct err1 as [e1|]; [by intros [= <- <- <- <-]|].
    destruct (dist_SetLabel w' LayersLabel (metadata lw')) as [err2 w2].
    by intros [= <- <- <- <-]. }
  revert Hclose. unfold AssetWriter_Close. rewrite Htmp.
  destruct (String.eqb (tmpDir lw) ""); [done|].
  destruct (os_RemoveAll (tmpDir lw) o1) as [[e|] o1'] eqn:Hrm; [done|].
  intros [= <- <-]. apply os_RemoveAll_ok in Hrm as [Hf Hd].
  split; [done|]. intros p. rewrite Hf, Hd, Hdirs.
  destruct (under (tmpDir lw) p) eqn:Hunder.
  - split.
    + apply map_lookup_filter_None. right. intros v _. cbn. congruence.
    + rewrite elem_of_filter. intros [? _]. congruence.
  - assert (files o1 !! p = files o !! p) as Hp.
    { apply Hfiles. intros b Hin ->. rewrite Hinside in Hunder; done. }
    split.
    + rewrite <- Hp. destruct (files o1 !! p) as [v|] eqn:Hv.
      * by apply map_lookup_filter_Some.
      * apply map_lookup_filter_None. by left.
    + rewrite elem_of_filter. split; [by intros [_ ?] | done].
Qed.

End WriterMore.

(** * Further properties of the fetchers *)

Section FetcherMore.

Context `{External} `{URIEnv}.

Lemma FetchAssets_loop_acc (cfg : FetcherConfig) (names : list string)
  (result : list Readable) (a : Fetcher) :
  FetchAssets_loop cfg names result a
  = (result ++ (FetchAssets_loop cfg names [] a).1.1,
     (FetchAssets_loop cfg names [] a).1.2,
     (FetchAssets_loop cfg names [] a).2).
Proof.
  revert result a. induction names as [|n names IH]; intros result a; cbn.
  - by rewrite app_nil_r.
  - destruct (dispatch cfg _ n a) as [[[assets [err|]] a']|]; cbn;
      [by rewrite app_nil_r | | by rewrite app_nil_r].
    rewrite (IH (result ++ assets)), (IH assets). cbn [fst snd].
    by rewrite app_assoc.
Qed.

(** X10. Fetching a list of references is fetching its parts one after
    the other: when the references of [pre] are all fetched, fetching
    [pre ++ post] yields their results followed by those of [post], in
    input order, with the outcome of fetching [post] from the state in
    which [pre] left the strategies. *)
Theorem FetchAssets_app (a a1 a2 : Fetcher) (pre post : list string)
  (options : list FetcherOptions) (r1 r2 : list Readable) (err : option error) :
  FetchAssets a pre options = (r1, None, a1) →
  FetchAssets a1 post options = (r2, err, a2) →
  FetchAssets a (pre ++ post) options = (r1 ++ r2, err, a2).
Proof.
  unfold FetchAssets. destruct DefaultFetcherConfig as [e|cfg0]; [done|].
  intros Hpre Hpost.
  rewrite (FetchAssets_loop_app _ pre post [] r1 a a1 Hpre).
  by rewrite FetchAssets_loop_acc, Hpost.
Qed.

Lemma FetchAssets_loop_calls (cfg : FetcherConfig) (names : list string)
  (result r : list Readable) (a a' : Fetcher) (err : option error) :
  FetchAssets_loop cfg names result a = (r, err, a') →
  ∃ k l, k ≤ length names
         ∧ fetched a' = fetched a ++ l
         ∧ map call_names l = map (λ n, [n]) (take k names)
         ∧ (err = None → k = length names).
Proof.
  revert result a. induction names as [|n names IH]; intros result a; cbn.
  - intros [= <- <- <-]. exists 0, []. by rewrite app_nil_r.
  - destruct (dispatch cfg _ n a) as [[[assets [e|]] a1]|] eqn:Hd.
    + intros [= <- <- <-].
      apply dispatch_one_call in Hd as (c & Hc & Hn).
      exists 1, [c]. cbn. rewrite Hn. repeat split; [lia | done | done].
    + intros (k & l & Hk & Hl & Hnames & Hall)%IH.
      apply dispatch_one_call in Hd as (c & Hc & Hn).
      exists (S k), (c :: l). cbn. rewrite Hn, Hnames.
      repeat split; [lia | | intros ?; f_equal; auto].
      by rewrite Hl, Hc, <- app_assoc.
    + intros [= <- <- <-]. exists 0, []. rewrite app_nil_r.
      repeat split; [lia | done].
Qed.

(** X11. [FetchAssets] asks the strategies for one reference at a time,
    in input order, never twice and never ahead: the calls it made are
    single-name calls for a prefix of the list, and when it succeeds, for
    the whole list. *)
Theorem FetchAssets_calls_in_order (a : Fetcher) (assetNameList : list string)
  (options : list FetcherOptions) :
  ∃ k, k ≤ length assetNameList
    ∧ map call_names
          (drop (length (fetched a))
                (fetched (FetchAssets a assetNameList options).2))
      = map (λ n, [n]) (take k assetNameList)
    ∧ ((FetchAssets a assetNameList options).1.2 = None →
       k = length assetNameList).
Proof.
  unfold FetchAssets. destruct DefaultFetcherConfig as [e|cfg0].
  - exists 0. cbn. rewrite drop_all. repeat split; [lia | done].
  - destruct (FetchAssets_loop _ assetNameList [] a) as [[r err] a'] eqn:Hloop.
    apply FetchAssets_loop_calls in Hloop as (k & l & Hk & Hl & Hnames & Hall).
    exists k. cbn. by rewrite Hl, drop_app_length.
Qed.

(** X12. A reference the locator cannot classify stops [FetchAssets]
    without any strategy being asked for it: the error names the
    reference, and the strategies are as the earlier references left
    them. *)
Theorem FetchAssets_invalid_locator (a a1 : Fetcher) (options : list FetcherOptions)
  (cfg0 : FetcherConfig) (pre post : list string) (assetName : string)
  (result1 : list Readable) :
  DefaultFetcherConfig = inr cfg0 →
  FetchAssets a pre options = (result1, None, a1) →
  GetLocatorType assetName
    (workingDir (fold_left (λ cfg option, option cfg) options cfg0))
  = InvalidLocator →
  FetchAssets a (pre ++ assetName :: post) options
  = (result1,
     Some (fmt_Errorf ("unable to determine asset type from name: " +:+ assetName)),
     a1).
Proof.
  unfold FetchAssets. intros -> Hpre Hloc.
  rewrite (FetchAssets_loop_app _ pre (assetName :: post) [] result1 a a1 Hpre).
  cbn. by rewrite Hloc.
Qed.

(** X13. The working directory of the process is needed even when the
    caller supplies one: if it cannot be determined, [FetchAssets] fails
    with the configuration error whatever the options are, returns an
    empty sequence and asks no strategy. *)
Theorem FetchAssets_config_failure (a : Fetcher) (assetNameList : list string)
  (options : list FetcherOptions) (err : error) :
  os_Getwd = inl err →
  FetchAssets a assetNameList options
  = ([], Some (fmt_Errorf ("unable to create asset fetcher config: "
                           +:+ strconv_Quote (Error err))), a).
Proof.
  intros Hwd. unfold FetchAssets, DefaultFetcherConfig. by rewrite Hwd.
Qed.

Lemma dispatch_call_at (cfg : FetcherConfig) (assetName : string)
  (a a' : Fetcher) (assets : list Readable) (err : option error) :
  dispatch cfg (GetLocatorType assetName (workingDir cfg)) assetName a
  = Some (assets, err, a') →
  ∃ c, fetched a' = fetched a ++ [c]
       ∧ match GetLocatorType assetName (workingDir cfg) with
         | URILocator => c = CallFetchURIAssets (ctx cfg) [assetName]
         | FilepathLocator =>
             c = CallFetchFileAssets (ctx cfg) (workingDir cfg) [assetName]
         | ImageLocator =>
             c = CallFetchImageAssets (ctx cfg) (imagePullPolicy cfg) [assetName]
         | InvalidLocator => False
         end.
Proof.
  unfold dispatch.
  destruct (GetLocatorType assetName (workingDir cfg)); [done | | |].
  - destruct (assetURIFetcher a _ _ _) as [? ?]. intros [= <- <- <-]. by eexists.
  - destruct (assetFileFetcher a _ _ _ _) as [? ?]. intros [= <- <- <-]. by eexists.
  - destruct (assetImageFetcher a _ _ _ _) as [? ?]. intros [= <- <- <-]. by eexists.
Qed.

Lemma FetchAssets_loop_calls_at (cfg : FetcherConfig) (names : list string)
  (result r : list Readable) (a a' : Fetcher) (err : option error) :
  FetchAssets_loop cfg names result a = (r, err, a') →
  ∃ k l, k ≤ length names
         ∧ fetched a' = fetched a ++ l
         ∧ Forall2
             (λ n c,
                match GetLocatorType n (workingDir cfg) with
                | URILocator => c = CallFetchURIAssets (ctx cfg) [n]
                | FilepathLocator =>
                    c = CallFetchFileAssets (ctx cfg) (workingDir cfg) [n]
                | ImageLocator =>
                    c = CallFetchImageAssets (ctx cfg) (imagePullPolicy cfg) [n]
                | InvalidLocator => False
                end)
             (take k names) l
         ∧ (err = None → k = length names).
Proof.
  revert result a. induction names as [|n names IH]; intros result a; cbn.
  - intros [= <- <- <-]. exists 0, []. rewrite app_nil_r.
    repeat split; [lia | constructor].
  - destruct (dispatch cfg _ n a) as [[[assets [e|]] a1]|] eqn:Hd.
    + intros [= <- <- <-].
      apply dispatch_call_at in Hd as (c & Hc & Hn).
      exists 1, [c]. cbn. rewrite take_0.
      repeat split; [lia | done | by repeat constructor | done].
    + intros (k & l & Hk & Hl & Hnames & Hall)%IH.
      apply dispatch_call_at in Hd as (c & Hc & Hn).
      exists (S k), (c :: l). cbn.
      repeat split; [lia | | by constructor | intros ?; f_equal; auto].
      by rewrite Hl, Hc, <- app_assoc.
    + intros [= <- <- <-]. exists 0, []. rewrite app_nil_r.
      repeat split; [lia | constructor | done].
Qed.

(** X14. The last working directory given decides, and the directory of
    the process does not: with [WithWorkingDir wd] as the last option,
    every reference is located relative to [wd], and every call to the
    file strategy carries [wd].  The calls made are, for a prefix of the
    references (all of them on success) and in order, the call of the
    strategy that the locator chooses for the reference and [wd], under
    the context and pull policy of the options before. *)
Theorem FetchAssets_WithWorkingDir_last (a : Fetcher) (assetNameList : list string)
  (options : list FetcherOptions) (wd : string) (cfg0 : FetcherConfig) :
  DefaultFetcherConfig = inr cfg0 →
  ∃ k, k ≤ length assetNameList
    ∧ Forall2
        (λ n c,
           match GetLocatorType n wd with
           | URILocator =>
               c = CallFetchURIAssets
                     (ctx (fold_left (λ cfg option, option cfg) options cfg0)) [n]
           | FilepathLocator =>
               c = CallFetchFileAssets
                     (ctx (fold_left (λ cfg option, option cfg) options cfg0)) wd [n]
           | ImageLocator =>
               c = CallFetchImageAssets
                     (ctx (fold_left (λ cfg option, option cfg) options cfg0))
                     (imagePullPolicy
                        (fold_left (λ cfg option, option cfg) options cfg0)) [n]
           | InvalidLocator => False
           end)
        (take k assetNameList)
        (drop (length (fetched a))
              (fetched (FetchAssets a assetNameList
                          (options ++ [WithWorkingDir wd])).2))
    ∧ ((FetchAssets a assetNameList (options ++ [WithWorkingDir wd])).1.2 = None →
       k = length assetNameList).
Proof.
  intros Hcfg. unfold FetchAssets. rewrite Hcfg, fold_left_app.
  cbn [fold_left].
  destruct (FetchAssets_loop _ assetNameList [] a) as [[r err] a'] eqn:Hloop.
  apply FetchAssets_loop_calls_at in Hloop as (k & l & Hk & Hl & Hcalls & Hall).
  exists k. cbn [fst snd]. rewrite Hl, drop_app_length.
  split; [done|]. split; [exact Hcalls | done].
Qed.

(** X15. The conversions to [Readable] keep every element, in order. *)
Theorem cast_keeps_order (OCIAssets : list OciLayoutPackage) (imgs : list Image) :
  castOCIToReadable OCIAssets = map ReadableOCI OCIAssets
  ∧ castImgToReadable imgs = map ReadableImage imgs.
Proof.
  assert (∀ (A : Type) (f : A → Readable) (l : list A) (acc : list Readable),
            fold_left (λ result x, result ++ [f x]) l acc = acc ++ map f l)
    as Hfold.
  { intros A f l. induction l as [|x l IH]; intros acc; cbn.
    - by rewrite app_nil_r.
    - by rewrite IH, <- app_assoc. }
  split.
  - unfold castOCIToReadable. by rewrite (Hfold _ ReadableOCI).
  - unfold castImgToReadable. by rewrite (Hfold _ ReadableImage).
Qed.

(** *** The URI fetcher *)

(** X16. The two revisions of the URI fetcher agree wherever the earlier
    one returns; where it panics, the later one returns the value of the
    panic wrapped as [error opening asset package in OCI format]. *)
Theorem URI_fetcher_revisions (c : Ctx) (uriAssets : list string) :
  match AssetURIFetcher_FetchURIAssets c uriAssets with
  | Returns r => PackageURLFetcher_FetchURIAssets c uriAssets = r
  | Panics v =>
      ∃ result,
        PackageURLFetcher_FetchURIAssets c uriAssets
        = (result, Some (errors_Wrap v "error opening asset package in OCI format"))
  end.
Proof.
  unfold AssetURIFetcher_FetchURIAssets, PackageURLFetcher_FetchURIAssets.
  generalize (@nil OciLayoutPackage) as result.
  induction uriAssets as [|assetFile rest IH]; intros result; cbn; [done|].
  destruct (url_Parse assetFile) as [err|uri]; [done|].
  destruct (is_http (Scheme uri)).
  - destruct (Download c (URL_String uri)) as [err|assetBlob]; [done|].
    destruct (NewOCILayoutPackage assetBlob) as [err|p]; [by eexists | apply IH].
  - destruct (String.eqb (Scheme uri) "file"); [|done].
    destruct (paths_URIToFilePath (URL_String uri)) as [err|fp]; [done|].
    destruct (localFileFetcher_FetchFileAssets c "" [fp]) as [assets [err|]];
      [done | apply IH].
Qed.

Lemma PackageURLFetcher_loop_acc (c : Ctx) (uriAssets : list string)
  (result : list OciLayoutPackage) :
  PackageURLFetcher_loop c uriAssets result
  = (result ++ (PackageURLFetcher_loop c uriAssets []).1,
     (PackageURLFetcher_loop c uriAssets []).2).
Proof.
  revert result. induction uriAssets as [|assetFile rest IH]; intros result; cbn.
  - by rewrite app_nil_r.
  - destruct (url_Parse assetFile) as [err|uri]; [by rewrite app_nil_r|].
    destruct (is_http (Scheme uri)).
    + destruct (Download c (URL_String uri)) as [err|assetBlob];
        [by rewrite app_nil_r|].
      destruct (NewOCILayoutPackage assetBlob) as [err|p]; [by rewrite app_nil_r|].
      rewrite (IH (result ++ [p])), (IH [p]). cbn. by rewrite <- app_assoc.
    + destruct (String.eqb (Scheme uri) "file"); [|by rewrite app_nil_r].
      destruct (paths_URIToFilePath (URL_String uri)) as [err|fp];
        [by rewrite app_nil_r|].
      destruct (localFileFetcher_FetchFileAssets c "" [fp]) as [assets [err|]];
        [by rewrite app_nil_r|].
      rewrite (IH (result ++ assets)), (IH assets). cbn. by rewrite <- app_assoc.
Qed.

Lemma PackageURLFetcher_loop_app (c : Ctx) (pre post : list string)
  (result r1 : list OciLayoutPackage) :
  PackageURLFetcher_loop c pre result = (r1, None) →
  PackageURLFetcher_loop c (pre ++ post) result = PackageURLFetcher_loop c post r1.
Proof.
  revert result. induction pre as [|assetFile rest IH]; intros result; cbn.
  - by intros [= <-].
  - destruct (url_Parse assetFile) as [err|uri]; [done|].
    destruct (is_http (Scheme uri)).
    + destruct (Download c (URL_String uri)) as [err|assetBlob]; [done|].
      destruct (NewOCILayoutPackage assetBlob) as [err|p]; [done | apply IH].
    + destruct (String.eqb (Scheme uri) "file"); [|done].
      destruct (paths_URIToFilePath (URL_String uri)) as [err|fp]; [done|].
      destruct (localFileFetcher_FetchFileAssets c "" [fp]) as [assets [err|]];
        [done | apply IH].
Qed.

(** X17. [PackageURLFetcher.FetchURIAssets] over a concatenation: when
    the references of [pre] are all fetched, the packages of [pre ++ post]
    are those of [pre] followed by those of [post], and the error is that
    of [post]. *)
Theorem PackageURLFetcher_app (c : Ctx) (pre post : list string)
  (r1 r2 : list OciLayoutPackage) (err : option error) :
  PackageURLFetcher_FetchURIAssets c pre = (r1, None) →
  PackageURLFetcher_FetchURIAssets c post = (r2, err) →
  PackageURLFetcher_FetchURIAssets c (pre ++ post) = (r1 ++ r2, err).
Proof.
  unfold PackageURLFetcher_FetchURIAssets. intros Hpre Hpost.
  rewrite (PackageURLFetcher_loop_app c pre post [] r1 Hpre).
  by rewrite PackageURLFetcher_loop_acc, Hpost.
Qed.

(** *** The image fetcher *)

Lemma AssetImageFetcher_loop_ok
  (ImgFetcher_Fetch : Ctx → string → bool → PullPolicy → error + Image)
  (c : Ctx) (pullPolicy : PullPolicy) (imageNames : list string)
  (result res : list Image) :
  AssetImageFetcher_loop ImgFetcher_Fetch c pullPolicy imageNames result = (res, None)
  ↔ ∃ imgs, res = result ++ imgs
            ∧ Forall2 (λ n img, ImgFetcher_Fetch c n true pullPolicy = inr img)
                      imageNames imgs.
Proof.
  revert result. induction imageNames as [|n names IH]; intros result; cbn.
  - split.
    + intros [= <-]. exists []. by rewrite app_nil_r.
    + intros (imgs & -> & Hall). apply Forall2_nil_inv_l in Hall as ->.
      by rewrite app_nil_r.
  - destruct (ImgFetcher_Fetch c n true pullPolicy) as [err|img] eqn:Hfetch.
    + split; [done|].
      intros (imgs & _ & Hall).
      apply Forall2_cons_inv_l in Hall as (img & imgs' & Himg & _ & _).
      congruence.
    + rewrite IH. split.
      * intros (imgs & -> & Hall). exists (img :: imgs).
        split; [by rewrite <- app_assoc | by constructor].
      * intros (imgs & -> & Hall).
        apply Forall2_cons_inv_l in Hall as (img' & imgs' & Himg & Hall & ->).
        exists imgs'. rewrite Hfetch in Himg. injection Himg as ->.
        split; [by rewrite <- app_assoc | done].
Qed.

(** X18. [FetchImageAssets] succeeds exactly when every name can be
    fetched, from the daemon and under the given pull policy; it then
    returns one image per name, in the order of the names. *)
Theorem AssetImageFetcher_success
  (ImgFetcher_Fetch : Ctx → string → bool → PullPolicy → error + Image)
  (c : Ctx) (pullPolicy : PullPolicy) (imageNames : list string)
  (imgs : list Image) :
  AssetImageFetcher_FetchImageAssets ImgFetcher_Fetch c pullPolicy imageNames
  = (imgs, None)
  ↔ Forall2 (λ n img, ImgFetcher_Fetch c n true pullPolicy = inr img)
            imageNames imgs.
Proof.
  unfold AssetImageFetcher_FetchImageAssets. rewrite AssetImageFetcher_loop_ok.
  split.
  - by intros (imgs' & -> & Hall).
  - intros Hall. by exists imgs.
Qed.

Lemma AssetImageFetcher_loop_fail
  (ImgFetcher_Fetch : Ctx → string → bool → PullPolicy → error + Image)
  (c : Ctx) (pullPolicy : PullPolicy) (imageNames : list string)
  (result res : list Image) (e : error) :
  AssetImageFetcher_loop ImgFetcher_Fetch c pullPolicy imageNames result
  = (res, Some e)
  ↔ ∃ pre imageName post imgs err,
      imageNames = pre ++ imageName :: post
      ∧ res = result ++ imgs
      ∧ Forall2 (λ n img, ImgFetcher_Fetch c n true pullPolicy = inr img) pre imgs
      ∧ ImgFetcher_Fetch c imageName true pullPolicy = inl err
      ∧ e = fmt_Errorf ("unable to fetch asset image: " +:+ strconv_Quote (Error err)).
Proof.
  revert result. induction imageNames as [|n names IH]; intros result; cbn.
  - split; [done|]. intros (pre & ? & ? & ? & ? & Heq & _). by destruct pre.
  - destruct (ImgFetcher_Fetch c n true pullPolicy) as [err|img] eqn:Hfetch.
    + split.
      * intros [= <- <-]. exists [], n, names, [], err.
        rewrite app_nil_r. repeat split; [constructor | done].
      * intros (pre & n' & post & imgs & err' & Heq & -> & Hall & Hfail & ->).
        destruct pre as [|n0 pre]; simplify_eq/=.
        -- apply Forall2_nil_inv_l in Hall as ->. rewrite app_nil_r. congruence.
        -- apply Forall2_cons_inv_l in Hall as (? & ? & ? & _). congruence.
    + rewrite IH. split.
      * intros (pre & n' & post & imgs & err' & -> & -> & Hall & Hfail & ->).
        exists (n :: pre), n', post, (img :: imgs), err'.
        rewrite <- app_assoc. repeat split; [by constructor | done].
      * intros (pre & n' & post & imgs & err' & Heq & -> & Hall & Hfail & ->).
        destruct pre as [|n0 pre]; simplify_eq/=; [congruence|].
        apply Forall2_cons_inv_l in Hall as (img' & imgs' & Himg & Hall & ->).
        rewrite Hfetch in Himg. injection Himg as <-.
        exists pre, n', post, imgs', err'.
        rewrite <- app_assoc. by repeat split.
Qed.

(** X23. [FetchImageAssets] fails exactly at the first name that cannot
    be fetched: it returns the images of the names before it, in order,
    and the cause quoted after [unable to fetch asset image: ]; the names
    after it play no part. *)
Theorem AssetImageFetcher_failure
  (ImgFetcher_Fetch : Ctx → string → bool → PullPolicy → error + Image)
  (c : Ctx) (pullPolicy : PullPolicy) (imageNames : list string)
  (result : list Image) (e : error) :
  AssetImageFetcher_FetchImageAssets ImgFetcher_Fetch c pullPolicy imageNames
  = (result, Some e)
  ↔ ∃ pre imageName post err,
      imageNames = pre ++ imageName :: post
      ∧ Forall2 (λ n img, ImgFetcher_Fetch c n true pullPolicy = inr img) pre result
      ∧ ImgFetcher_Fetch c imageName true pullPolicy = inl err
      ∧ e = fmt_Errorf ("unable to fetch asset image: " +:+ strconv_Quote (Error err)).
Proof.
  unfold AssetImageFetcher_FetchImageAssets. rewrite AssetImageFetcher_loop_fail.
  split.
  - intros (pre & n & post & imgs & err & -> & -> & Hall & Hfail & ->).
    by exists pre, n, post, err.
  - intros (pre & n & post & err & -> & Hall & Hfail & ->).
    by exists pre, n, post, result, err.
Qed.

End FetcherMore.

(** * Hard links, and the assertions of the tests *)

Lemma uint64_small (z : Z) : (0 ≤ z < 2 ^ 64)%Z → uint64 z = z.
Proof. intros Hz. unfold uint64. by apply Z.mod_small. Qed.

Lemma land_shiftl_low (h l : Z) :
  (0 ≤ l < 2 ^ 32)%Z → Z.land (Z.shiftl h 32) l = 0%Z.
Proof.
  intros Hl. apply Z.bits_inj'. intros n Hn.
  rewrite Z.land_spec, Z.bits_0.
  destruct (Z.lt_ge_cases n 32) as [Hlt|Hge].
  - by rewrite Z.shiftl_spec_low.
  - rewrite <- (Z.mod_small l (2 ^ 32)) by done.
    rewrite Z.mod_pow2_bits_high by lia. apply andb_false_r.
Qed.

Lemma file_index_sum (s : ByHandleFileInformation) :
  is_uint32 (FileIndexHigh s) → is_uint32 (FileIndexLow s) →
  file_index s = (FileIndexHigh s * 2 ^ 32 + FileIndexLow s)%Z.
Proof.
  unfold is_uint32, file_index. intros Hh Hl.
  rewrite (uint64_small (FileIndexHigh s)) by lia.
  rewrite (uint64_small (FileIndexLow s)) by lia.
  rewrite (uint64_small (Z.shiftl (FileIndexHigh s) 32))
    by (rewrite Z.shiftl_mul_pow2 by lia; nia).
  rewrite <- Z.lxor_lor by (by apply land_shiftl_low).
  rewrite <- Z.add_nocarry_lxor by (by apply land_shiftl_low).
  by rewrite Z.shiftl_mul_pow2 by lia.
Qed.

(** X19. The inode packs the two 32-bit file indexes without loss: it is
    [high * 2^32 + low], fits 64 bits, and gives both indexes back by a
    shift and a mask; so files with different indexes get different
    inodes. *)
Theorem getInodeFromStat_packs (s : ByHandleFileInformation)
  (open_path : error + ByHandleFileInformation) :
  is_uint32 (FileIndexHigh s) → is_uint32 (FileIndexLow s) →
  ∃ inode,
    getInodeFromStat (Some s) open_path = (inode, None)
    ∧ getInodeFromStat None (inr s) = (inode, None)
    ∧ (0 ≤ inode < 2 ^ 64)%Z
    ∧ inode = (FileIndexHigh s * 2 ^ 32 + FileIndexLow s)%Z
    ∧ Z.shiftr inode 32 = FileIndexHigh s
    ∧ Z.land inode (2 ^ 32 - 1) = FileIndexLow s.
Proof.
  intros Hh Hl. exists (file_index s). do 2 (split; [done|]).
  rewrite (file_index_sum s Hh Hl). unfold is_uint32 in *.
  split; [nia|]. split; [done|]. split.
  - rewrite Z.shiftr_div_pow2 by lia.
    rewrite Z.div_add_l by lia. rewrite Z.div_small by lia. lia.
  - change (2 ^ 32 - 1)%Z with (Z.ones 32). rewrite Z.land_ones by lia.
    rewrite Z.add_comm, Z.mod_add by lia. by apply Z.mod_small.
Qed.

Lemma append_nil (q : string) : EmptyString +:+ q = q.
Proof. reflexivity. Qed.

Lemma append_cons (a : ascii) (p q : string) :
  String a p +:+ q = String a (p +:+ q).
Proof. reflexivity. Qed.

Lemma prefix_spec (p s : string) :
  String.prefix p s = true ↔ ∃ post, s = p +:+ post.
Proof.
  revert s. induction p as [|a p IH]; intros s; destruct s as [|b s]; cbn.
  - split; [intros _; by exists EmptyString | done].
  - split; [intros _; by exists (String b s) | done].
  - split; [done|]. intros [post Heq]. rewrite append_cons in Heq. done.
  - destruct (ascii_dec a b) as [->|Hne].
    + rewrite IH. split.
      * intros [post ->]. by exists post.
      * intros [post Heq]. rewrite append_cons in Heq.
        injection Heq as ->. by exists post.
    + split; [done|]. intros [post Heq]. rewrite append_cons in Heq.
      injection Heq as ? _. done.
Qed.

Lemma strings_Contains_spec (s substr : string) :
  strings_Contains s substr = true ↔ ∃ pre post, s = pre +:+ substr +:+ post.
Proof.
  induction s as [|a s IH]; cbn [strings_Contains].
  - rewrite orb_false_r, prefix_spec. split.
    + intros [post ->]. by exists EmptyString, post.
    + intros (pre & post & Heq). destruct pre as [|c pre]; [by exists post|].
      rewrite append_cons in Heq. done.
  - rewrite orb_true_iff, prefix_spec, IH. split.
    + intros [[post ->]|(pre & post & ->)].
      * by exists EmptyString, post.
      * by exists (String a pre), post.
    + intros (pre & post & Heq). destruct pre as [|c pre].
      * left. by exists post.
      * right. rewrite append_cons in Heq. injection Heq as -> ->.
        by exists pre, post.
Qed.

Lemma Contains_passes (cmp_Diff : string → string → string)
  (actual expected : string) :
  AssertionManager_Contains cmp_Diff actual expected = Passed
  ↔ ∃ pre post, actual = pre +:+ expected +:+ post.
Proof.
  rewrite <- strings_Contains_spec. unfold AssertionManager_Contains.
  by destruct (strings_Contains actual expected).
Qed.

(** X20. [ContainsAll] passes exactly when every expected string occurs
    in the actual one; otherwise it ends the test at the first expected
    string that does not occur, with the message of [Contains] for it. *)
Theorem ContainsAll_spec (cmp_Diff : string → string → string) (actual : string)
  (expected : list string) :
  (AssertionManager_ContainsAll cmp_Diff actual expected = Passed
   ↔ ∀ e, e ∈ expected → ∃ pre post, actual = pre +:+ e +:+ post)
  ∧ ∀ msg, AssertionManager_ContainsAll cmp_Diff actual expected = Fatal msg →
      ∃ found e rest,
        expected = found ++ e :: rest
        ∧ (∀ e', e' ∈ found → ∃ pre post, actual = pre +:+ e' +:+ post)
        ∧ (¬ ∃ pre post, actual = pre +:+ e +:+ post)
        ∧ AssertionManager_Contains cmp_Diff actual e = Fatal msg.
Proof.
  induction expected as [|e rest [IHpass IHfail]]; cbn [AssertionManager_ContainsAll].
  - split; [split; [intros _ e' Hin; by apply elem_of_nil in Hin | done] | done].
  - destruct (AssertionManager_Contains cmp_Diff actual e) as [|msg0] eqn:Hc.
    + apply Contains_passes in Hc. split.
      * rewrite IHpass. split.
        -- intros Hall e' [->|Hin]%elem_of_cons; [done | by apply Hall].
        -- intros Hall e' Hin. apply Hall. by right.
      * intros msg (found & e0 & rest' & -> & Hfound & Hmiss & Hmsg)%IHfail.
        exists (e :: found), e0, rest'. split; [done|]. split; [|done].
        intros e' [->|Hin]%elem_of_cons; [done | by apply Hfound].
    + assert (¬ ∃ pre post, actual = pre +:+ e +:+ post) as Hmiss.
      { rewrite <- (Contains_passes cmp_Diff). congruence. }
      split.
      * split; [done|]. intros Hall. destruct Hmiss. apply Hall. by left.
      * intros msg [= <-]. exists [], e, rest. split; [done|].
        split; [intros e' Hin; by apply elem_of_nil in Hin | done].
Qed.

(** X21. [errorMatches] passes exactly when there is an error and its
    message contains the expected text. *)
Theorem errorMatches_spec (actual : option error) (expected : string) :
  AssertionManager_errorMatches actual expected = Passed
  ↔ ∃ e pre post, actual = Some e ∧ Error e = pre +:+ expected +:+ post.
Proof.
  unfold AssertionManager_errorMatches, AssertionManager_Error.
  destruct actual as [e|].
  - destruct (strings_Contains (Error e) expected) eqn:Hc; cbn [negb].
    + apply strings_Contains_spec in Hc as (pre & post & Heq).
      split; [intros _; by exists e, pre, post | done].
    + split; [done|]. intros (e' & pre & post & [= <-] & Heq).
      assert (strings_Contains (Error e) expected = true) as Hc'
        by (apply strings_Contains_spec; by exists pre, post).
      congruence.
  - split; [done|]. by intros (e & pre & post & [=] & _).
Qed.

(** X22. [NotContain] is the opposite of [Contains]: it passes exactly
    when the expected string does not occur in the actual one, so of the
    two assertions exactly one passes; and since the empty string occurs
    in every string, [NotContain] of the empty string never passes. *)
Theorem NotContain_spec (cmp_Diff : string → string → string)
  (actual expected : string) :
  (AssertionManager_NotContain actual expected = Passed
   ↔ ¬ ∃ pre post, actual = pre +:+ expected +:+ post)
  ∧ (AssertionManager_NotContain actual expected = Passed
     ↔ AssertionManager_Contains cmp_Diff actual expected ≠ Passed)
  ∧ AssertionManager_NotContain actual "" ≠ Passed.
Proof.
  assert (∀ e, AssertionManager_NotContain actual e = Passed
               ↔ ¬ ∃ pre post, actual = pre +:+ e +:+ post) as Hnot.
  { intros e. rewrite <- strings_Contains_spec. unfold AssertionManager_NotContain.
    by destruct (strings_Contains actual e); split. }
  split; [apply Hnot|]. split.
  - by rewrite Hnot, (Contains_passes cmp_Diff).
  - rewrite Hnot. intros Hmiss. apply Hmiss. exists EmptyString, actual.
    by rewrite !append_nil.
Qed.

(** * The further properties, run on the doubles *)

Section MoreScenarios.

#[local] Existing Instance toy_External.
#[local] Existing Instance recorder.
#[local] Existing Instance toy_FetchEnv.
#[local] Existing Instance toy_URIEnv.

Lemma Open_Close_round_trip_witness :
  (AssetWriter_Open (NewLayerWriter recorderFactory) busy_OS
   = (None, busy_opened.1.2, busy_opened.2)
   ∧ AssetWriter_Close busy_opened.1.2 busy_opened.2
     = (None, busy_closed.1.2, busy_closed.2))
  ∧ busy_closed.1.2 = (NewLayerWriter recorderFactory)
  ∧ ("/tmp/writer-workspace042" ∉ dirs busy_closed.2)
  ∧ files busy_closed.2 !! "/etc/hosts" = files busy_OS !! "/etc/hosts".
Proof.
  assert (AssetWriter_Open (NewLayerWriter recorderFactory) busy_OS
          = (None, busy_opened.1.2, busy_opened.2)) as Hopen
    by (vm_compute; reflexivity).
  assert (AssetWriter_Close busy_opened.1.2 busy_opened.2
          = (None, busy_closed.1.2, busy_closed.2)) as Hclose
    by (vm_compute; reflexivity).
  split; [split; assumption|].
  destruct (Open_Close_round_trip (NewLayerWriter recorderFactory) busy_opened.1.2 busy_closed.1.2
              busy_OS busy_opened.2 busy_closed.2 Hopen Hclose) as [Hlw Hfs].
  split; [exact Hlw|]. split.
  - exact (proj2 (Hfs "/tmp/writer-workspace042")).
  - exact (proj1 (Hfs "/etc/hosts")).
Defined.

Lemma Open_twice_fails_witness :
  AssetWriter_Open (NewLayerWriter recorderFactory) busy_OS
  = (None, busy_opened.1.2, busy_opened.2)
  ∧ AssetWriter_Open busy_opened.1.2 quiet_OS
    = (Some (errors_New "unable to open writer: writer already open"),
       busy_opened.1.2, quiet_OS).
Proof.
  assert (AssetWriter_Open (NewLayerWriter recorderFactory) busy_OS
          = (None, busy_opened.1.2, busy_opened.2)) as Hopen
    by (vm_compute; reflexivity).
  split; [exact Hopen|].
  exact (Open_twice_fails (NewLayerWriter recorderFactory) busy_opened.1.2 busy_OS busy_opened.2
           quiet_OS Hopen).
Defined.

(** The second blob of [partly_unreadable] cannot be opened: the layer of
    the first one stays registered, and its diff-id stays in the
    metadata. *)
Lemma Write_failure_keeps_progress_witness :
  (tmpDir partly_unreadable.1 ≠ ""
   ∧ AssetWriter_Write partly_unreadable.1 fresh_target partly_unreadable.2
     = (Some (errors_Wrap
                (errors_Wrap (errors_New "open blob error")
                   ("unable to open blob for asset " +:+ strconv_Quote "first-sha256"))
                "unable to create asset layer file"),
        partly_written.1.1.2, partly_written.1.2, partly_written.2))
  ∧ ∃ n, n ≤ length (blobs partly_unreadable.1)
    ∧ (∀ k, metadata partly_written.1.1.2 !! k
            = match last_declared k (take n (blobs partly_unreadable.1)) with
              | Some b =>
                  (λ m, set_LayerDiffID m (diffID_of (assetLayerReader recorderFactory b).1))
                    <$> metadata partly_unreadable.1 !! k
              | None => metadata partly_unreadable.1 !! k
              end)
    ∧ ((n < length (blobs partly_unreadable.1)
        ∧ calls partly_written.1.2
          = calls fresh_target
            ++ map (layer_call (writerFactory partly_unreadable.1) (tmpDir partly_unreadable.1))
                   (take n (blobs partly_unreadable.1)))
       ∨ (n < length (blobs partly_unreadable.1)
          ∧ calls partly_written.1.2
            = calls fresh_target
              ++ map (layer_call (writerFactory partly_unreadable.1) (tmpDir partly_unreadable.1))
                     (take (S n) (blobs partly_unreadable.1)))
       ∨ (n = length (blobs partly_unreadable.1)
          ∧ calls partly_written.1.2
            = calls fresh_target
              ++ map (layer_call (writerFactory partly_unreadable.1) (tmpDir partly_unreadable.1))
                     (blobs partly_unreadable.1)
              ++ [CallSetLabel LayersLabel
                    (json_Marshal (metadata partly_written.1.1.2))])).
Proof.
  assert (tmpDir partly_unreadable.1 ≠ "") as Hopen
    by (vm_compute; discriminate).
  split; [split; [exact Hopen | vm_compute; reflexivity]|].
  apply (Write_failure_keeps_progress partly_unreadable.1 partly_written.1.1.2
           fresh_target partly_written.1.2 partly_unreadable.2 partly_written.2
           (errors_Wrap
              (errors_Wrap (errors_New "open blob error")
                 ("unable to open blob for asset " +:+ strconv_Quote "first-sha256"))
              "unable to create asset layer file") Hopen).
  vm_compute; reflexivity.
Defined.

Example partly_written_calls :
  calls partly_written.1.2
  = [ CallAddLayerWithDiffID "/tmp/writer-workspace042/second-sha256"
        (diffID_of (assetLayerReader recorderFactory secondAssetBlob).1) ]
  ∧ AssetValue.LayerDiffID <$> metadata partly_written.1.1.2 !! "second-sha256"
    = Some (diffID_of (assetLayerReader recorderFactory secondAssetBlob).1)
  ∧ AssetValue.LayerDiffID <$> metadata partly_written.1.1.2 !! "first-sha256"
    = Some "".
Proof. repeat split; vm_compute; reflexivity. Qed.

Lemma Write_twice_witness :
  (AssetWriter_Write two_assets.1 fresh_target two_assets.2
   = (None, two_written.1.1.2, two_written.1.2, two_written.2)
   ∧ AssetWriter_Write two_written.1.1.2 two_written.1.2 two_written.2
     = (None, two_rewritten.1.1.2, two_rewritten.1.2, two_rewritten.2))
  ∧ metadata two_rewritten.1.1.2 = metadata two_written.1.1.2
  ∧ drop (length (calls two_written.1.2)) (calls two_rewritten.1.2)
    = drop (length (calls fresh_target)) (calls two_written.1.2).
Proof.
  split; [split; vm_compute; reflexivity|].
  apply (Write_twice two_assets.1 two_written.1.1.2 two_rewritten.1.1.2
           fresh_target two_written.1.2 two_written.1.2 two_rewritten.1.2
           two_assets.2 two_written.2 two_written.2 two_rewritten.2);
    vm_compute; reflexivity.
Defined.

Lemma toAssetTar_unreadable_witness :
  Open mockBlob = inl (errors_New "open blob error")
  ∧ (toAssetTar "first-sha256" mockBlob []).1
    = (feed (asset_layer_dirs NormalizedDateTime) []).1
  ∧ (toAssetTar "first-sha256" mockBlob []).2
    = inl (errors_Wrap (errors_New "open blob error")
             ("unable to open blob for asset " +:+ strconv_Quote "first-sha256")).
Proof.
  split; [reflexivity|].
  destruct (proj1 (toAssetTar_unreadable "first-sha256" mockBlob [])
              (errors_New "open blob error") eq_refl)
    as (Hcalls & e & He & Hcause).
  split; [exact Hcalls|].
  rewrite He. f_equal. apply Hcause. reflexivity.
Defined.

Lemma createAssetLayerFile_hash_of_file_witness :
  createAssetLayerFile "/etc/hosts" (list_byte_of_string "layer", None) busy_OS
  = (inr "reyal",
     (createAssetLayerFile "/etc/hosts" (list_byte_of_string "layer", None)
        busy_OS).2)
  ∧ (list_byte_of_string "layer", @None error).2 = None
  ∧ ∃ content,
      files (createAssetLayerFile "/etc/hosts" (list_byte_of_string "layer", None)
               busy_OS).2 !! "/etc/hosts" = Some content
      ∧ content = (list_byte_of_string "layer", @None error).1
      ∧ "reyal" = hex_EncodeToString (sha256_Sum content)
      ∧ (∀ p, p ≠ "/etc/hosts" →
           files (createAssetLayerFile "/etc/hosts"
                    (list_byte_of_string "layer", None) busy_OS).2 !! p
           = files busy_OS !! p)
      ∧ dirs (createAssetLayerFile "/etc/hosts" (list_byte_of_string "layer", None)
                busy_OS).2 = dirs busy_OS.
Proof.
  assert (createAssetLayerFile "/etc/hosts" (list_byte_of_string "layer", None)
            busy_OS
          = (inr "reyal",
             (createAssetLayerFile "/etc/hosts" (list_byte_of_string "layer", None)
                busy_OS).2)) as Hrun by (vm_compute; reflexivity).
  split; [exact Hrun|].
  exact (createAssetLayerFile_hash_of_file "/etc/hosts"
           (list_byte_of_string "layer", None) busy_OS _ "reyal" Hrun).
Defined.

Lemma FetchAssets_app_witness :
  (FetchAssets toy_Fetcher ["good-image"] []
   = ([ReadableImage "good-image"], None,
      (FetchAssets toy_Fetcher ["good-image"] []).2)
   ∧ FetchAssets (FetchAssets toy_Fetcher ["good-image"] []).2
       ["https://example.com/pkg"; "bad-image"; "never-fetched"] []
     = ([ReadableOCI "https://example.com/pkg"],
        Some (fmt_Errorf ("unable to fetch asset of type "
                          +:+ strconv_Quote "ImageLocator" +:+ ": pull failed")),
        (FetchAssets (FetchAssets toy_Fetcher ["good-image"] []).2
           ["https://example.com/pkg"; "bad-image"; "never-fetched"] []).2))
  ∧ FetchAssets toy_Fetcher
      (["good-image"] ++ ["https://example.com/pkg"; "bad-image"; "never-fetched"]) []
    = ([ReadableImage "good-image"] ++ [ReadableOCI "https://example.com/pkg"],
       Some (fmt_Errorf ("unable to fetch asset of type "
                         +:+ strconv_Quote "ImageLocator" +:+ ": pull failed")),
       (FetchAssets (FetchAssets toy_Fetcher ["good-image"] []).2
          ["https://example.com/pkg"; "bad-image"; "never-fetched"] []).2).
Proof.
  split; [split; vm_compute; reflexivity|].
  apply (FetchAssets_app toy_Fetcher (FetchAssets toy_Fetcher ["good-image"] []).2);
    vm_compute; reflexivity.
Defined.

Lemma PackageURLFetcher_app_witness :
  (PackageURLFetcher_FetchURIAssets context_Background ["https://example.com/a"]
   = (["https://example.com/a"], None)
   ∧ PackageURLFetcher_FetchURIAssets context_Background ["file:///b"; "ftp://c"]
     = (["file:///b"],
        Some (fmt_Errorf "unable to parse asset url: missing protocol scheme")))
  ∧ PackageURLFetcher_FetchURIAssets context_Background
      (["https://example.com/a"] ++ ["file:///b"; "ftp://c"])
    = (["https://example.com/a"] ++ ["file:///b"],
       Some (fmt_Errorf "unable to parse asset url: missing protocol scheme")).
Proof.
  split; [split; reflexivity|].
  apply (@PackageURLFetcher_app toy_External toy_FetchEnv toy_URIEnv
           context_Background ["https://example.com/a"]
           ["file:///b"; "ftp://c"] ["https://example.com/a"] ["file:///b"]
           (Some (fmt_Errorf "unable to parse asset url: missing protocol scheme")));
    reflexivity.
Defined.

Lemma AssetImageFetcher_success_witness :
  AssetImageFetcher_FetchImageAssets toy_ImgFetcher_Fetch context_Background
    PullAlways ["first-image"; "second-image"]
  = (["first-image"; "second-image"], None).
Proof.
  apply (AssetImageFetcher_success toy_ImgFetcher_Fetch context_Background
           PullAlways ["first-image"; "second-image"]).
  repeat constructor.
Defined.

Lemma AssetImageFetcher_failure_witness :
  AssetImageFetcher_FetchImageAssets toy_ImgFetcher_Fetch context_Background
    PullAlways (["first-image"] ++ "bad-image" :: ["never-fetched"])
  = (["first-image"],
     Some (fmt_Errorf ("unable to fetch asset image: "
                       +:+ strconv_Quote (Error (errors_New "pull failed"))))).
Proof.
  apply (AssetImageFetcher_failure toy_ImgFetcher_Fetch context_Background
           PullAlways (["first-image"] ++ "bad-image" :: ["never-fetched"])).
  exists ["first-image"], "bad-image", ["never-fetched"], (errors_New "pull failed").
  split; [reflexivity|]. split; [by repeat constructor|].
  split; reflexivity.
Defined.

Lemma getInodeFromStat_packs_witness :
  (is_uint32 (FileIndexHigh linked_file) ∧ is_uint32 (FileIndexLow linked_file))
  ∧ ∃ inode,
      getInodeFromStat (Some linked_file) (inl (errors_New "not opened"))
      = (inode, None)
      ∧ getInodeFromStat None (inr linked_file) = (inode, None)
      ∧ (0 ≤ inode < 2 ^ 64)%Z
      ∧ inode = (FileIndexHigh linked_file * 2 ^ 32 + FileIndexLow linked_file)%Z
      ∧ Z.shiftr inode 32 = FileIndexHigh linked_file
      ∧ Z.land inode (2 ^ 32 - 1) = FileIndexLow linked_file.
Proof.
  assert (is_uint32 (FileIndexHigh linked_file)) as Hh by (cbv; split; congruence).
  assert (is_uint32 (FileIndexLow linked_file)) as Hl by (cbv; split; congruence).
  split; [split; assumption|].
  exact (getInodeFromStat_packs linked_file (inl (errors_New "not opened")) Hh Hl).
Defined.

Example linked_file_inode :
  getInodeFromStat (Some linked_file) (inl (errors_New "not opened"))
  = (4294967301%Z, None)
  ∧ hasHardlinks (Some linked_file) (inl (errors_New "not opened")) = (true, None)
  ∧ getInodeFromStat None (inl (errors_New "access denied"))
    = (0%Z, Some (errors_New "access denied")).
Proof. repeat split. Qed.

End MoreScenarios.

Section StrictScenarios.

#[local] Existing Instance toy_External.
#[local] Existing Instance strict_FetchEnv.

(** The empty reference is no locator: the file strategy was asked for
    the first reference, and nothing was asked for the second or third. *)
Lemma FetchAssets_invalid_locator_witness :
  (DefaultFetcherConfig
   = inr {| ctx := context_Background; imagePullPolicy := PullIfNotPresent;
            workingDir := "/work" |}
   ∧ FetchAssets strict_Fetcher ["/pkg.tar"] []
     = ([ReadableOCI "/pkg.tar"], None,
        record_call (CallFetchFileAssets context_Background "/work" ["/pkg.tar"])
          strict_Fetcher)
   ∧ GetLocatorType "" "/work" = InvalidLocator)
  ∧ FetchAssets strict_Fetcher (["/pkg.tar"] ++ "" :: ["some-image"]) []
    = ([ReadableOCI "/pkg.tar"],
       Some (fmt_Errorf ("unable to determine asset type from name: " +:+ "")),
       record_call (CallFetchFileAssets context_Background "/work" ["/pkg.tar"])
         strict_Fetcher).
Proof.
  split; [repeat split; reflexivity|].
  apply (FetchAssets_invalid_locator strict_Fetcher
           (record_call (CallFetchFileAssets context_Background "/work" ["/pkg.tar"])
              strict_Fetcher)
           [] {| ctx := context_Background; imagePullPolicy := PullIfNotPresent;
                 workingDir := "/work" |}
           ["/pkg.tar"] ["some-image"] "" [@ReadableOCI strict_FetchEnv "/pkg.tar"]);
    reflexivity.
Defined.

(** The directory of the process is [/work] and an earlier option says
    [/first]; the file strategy is called with [/last]. *)
Lemma FetchAssets_WithWorkingDir_last_witness :
  DefaultFetcherConfig
  = inr {| ctx := context_Background; imagePullPolicy := PullIfNotPresent;
           workingDir := "/work" |}
  ∧ fetched (FetchAssets strict_Fetcher ["/pkg.tar"; "some-image"]
               ([WithPullPolicy PullNever; WithWorkingDir "/first"]
                ++ [WithWorkingDir "/last"])).2
    = [ CallFetchFileAssets context_Background "/last" ["/pkg.tar"];
        CallFetchImageAssets context_Background PullNever ["some-image"] ].
Proof.
  split; [reflexivity|].
  destruct (FetchAssets_WithWorkingDir_last strict_Fetcher
              ["/pkg.tar"; "some-image"]
              [WithPullPolicy PullNever; WithWorkingDir "/first"] "/last"
              {| ctx := context_Background; imagePullPolicy := PullIfNotPresent;
                 workingDir := "/work" |} eq_refl)
    as (k & Hk & Hcalls & Hall).
  assert (k = 2) as -> by (apply Hall; reflexivity).
  apply Forall2_cons_inv_l in Hcalls as (c1 & l1 & Hc1 & Hcalls & Heq).
  apply Forall2_cons_inv_l in Hcalls as (c2 & l2 & Hc2 & Hcalls & ->).
  apply Forall2_nil_inv_l in Hcalls as ->.
  cbn in Hc1, Hc2. subst c1 c2. exact Heq.
Defined.

End StrictScenarios.

Section LostScenarios.

#[local] Existing Instance toy_External.
#[local] Existing Instance lost_FetchEnv.

Lemma FetchAssets_config_failure_witness :
  os_Getwd = inl (errors_New "getwd: no such file or directory")
  ∧ FetchAssets lost_Fetcher ["some-image"] [WithWorkingDir "/elsewhere"]
    = ([],
       Some (fmt_Errorf
               ("unable to create asset fetcher config: "
                +:+ strconv_Quote
                      (Error (errors_New "getwd: no such file or directory")))),
       lost_Fetcher).
Proof.
  split; [reflexivity|].
  exact (FetchAssets_config_failure lost_Fetcher ["some-image"]
           [WithWorkingDir "/elsewhere"]
           (errors_New "getwd: no such file or directory") eq_refl).
Defined.

End LostScenarios.

Section CleanupScenarios.

#[local] Existing Instance toy_External.
#[local] Existing Instance recorder.

Lemma Write_Close_cleans_up_witness :
  ((∀ b, b ∈ blobs busy_partly.1 →
      under (tmpDir busy_partly.1) (layer_file (tmpDir busy_partly.1) b) = true)
   ∧ AssetWriter_Write busy_partly.1 fresh_target busy_partly.2
     = (busy_written.1.1.1, busy_written.1.1.2, busy_written.1.2, busy_written.2)
   ∧ AssetWriter_Close busy_written.1.1.2 busy_written.2
     = (None, busy_written_closed.1.2, busy_written_closed.2))
  ∧ tmpDir busy_written_closed.1.2 = ""
  ∧ files busy_written_closed.2 !! "/tmp/writer-workspace042/second-sha256" = None
  ∧ files busy_written_closed.2 !! "/etc/hosts" = files busy_OS !! "/etc/hosts".
Proof.
  assert (∀ b, b ∈ blobs busy_partly.1 →
            under (tmpDir busy_partly.1) (layer_file (tmpDir busy_partly.1) b) = true)
    as Hinside.
  { change (blobs busy_partly.1) with [secondAssetBlob; mockBlob].
    intros b [->|[->|Hin%elem_of_nil]%elem_of_cons]%elem_of_cons;
      [vm_compute; reflexivity | vm_compute; reflexivity | destruct Hin]. }
  assert (AssetWriter_Write busy_partly.1 fresh_target busy_partly.2
          = (busy_written.1.1.1, busy_written.1.1.2, busy_written.1.2,
             busy_written.2)) as Hwrite by (vm_compute; reflexivity).
  assert (AssetWriter_Close busy_written.1.1.2 busy_written.2
          = (None, busy_written_closed.1.2, busy_written_closed.2)) as Hclose
    by (vm_compute; reflexivity).
  split; [split; [exact Hinside | split; assumption]|].
  destruct (Write_Close_cleans_up busy_partly.1 busy_written.1.1.2
              busy_written_closed.1.2 fresh_target busy_written.1.2
              busy_partly.2 busy_written.2 busy_written_closed.2
              busy_written.1.1.1 Hinside Hwrite Hclose) as [Hclosed Hfs].
  split; [exact Hclosed|]. split.
  - exact (proj1 (Hfs "/tmp/writer-workspace042/second-sha256")).
  - exact (proj1 (Hfs "/etc/hosts")).
Defined.

(** The layer file is named by joining the workspace and the declared
    hash, and [filepath.Join] cleans the result: a declared hash that
    climbs out of the workspace puts the layer file beside it, where
    [Close] does not reach. *)
Example escaping_layer_file_survives_Close :
  layer_file (tmpDir escaping.1) escapingBlob = "/tmp/escaped"
  ∧ under (tmpDir escaping.1) "/tmp/escaped" = false
  ∧ escaping_written.1.1.1 = None
  ∧ escaping_closed.1.1 = None
  ∧ files escaping_closed.2 !! "/tmp/escaped"
    = Some (assetLayerReader recorderFactory escapingBlob).1.
Proof. repeat split; vm_compute; reflexivity. Qed.

End CleanupScenarios.
